(** * Text-input scroll assist (ion-input / ion-textarea)

    A shallow embedding of the text-input component: the geometry
    resolver [getScrollData], the duration mapping
    [getScrollAssistDuration], the clone helpers, the clear-on-edit
    feature and the pointer handlers installed by [_enableScrollAssist].

    Numbers.  A JavaScript [number] is modelled as an exact rational
    ([Q]).  The quantities the component handles are pixel values read
    from the DOM and halves of them, on which rational and double
    arithmetic agree; [NaN] and the infinities are outside the model.
    Equality of numbers in statements is [Qeq] ([==]). *)

From Stdlib Require Import QArith Qround Qabs Qminmax Lqa ZArith Lia.
From Stdlib Require Import Bool List String.
Import ListNotations.

Local Open Scope Q_scope.

(** ** JavaScript numbers *)

Module Js.

Definition number := Q.

(** [a <= b] *)
Definition le (a b : number) : bool := Qle_bool a b.
(** [a < b] *)
Definition lt (a b : number) : bool := negb (Qle_bool b a).
(** [a >= b] *)
Definition ge (a b : number) : bool := le b a.
(** [a > b] *)
Definition gt (a b : number) : bool := lt b a.

(** [Math.round]: the nearest integer, halves going up. *)
Definition Math_round (x : number) : number := inject_Z (Qfloor (x + (1 # 2))).

Definition Math_abs (x : number) : number := Qabs x.
Definition Math_min (a b : number) : number := Qmin a b.
Definition Math_max (a b : number) : number := Qmax a b.

End Js.

Import Js.

(** ** Geometry resolver *)

(** [ContentDimensions], as far as [getScrollData] reads it together
    with the two sizes the snapshot also carries. *)
Record ContentDimensions : Type := {
  contentTop : number;
  contentHeight : number;
  scrollTop : number;
  scrollHeight : number
}.

Record ScrollData : Type := {
  scrollAmount : number;
  scrollTo : number;
  scrollPadding : number;
  inputSafeY : number
}.

Definition SCROLL_ASSIST_SPEED : number := 3 # 10.

(** The locals of [getScrollData], named as in the source. *)
Section ScrollGeometry.

Variables (inputOffsetTop inputOffsetHeight : number).
Variable scrollViewDimensions : ContentDimensions.
Variables (keyboardHeight plaformHeight : number).

Definition inputTop : number :=
  inputOffsetTop + contentTop scrollViewDimensions - scrollTop scrollViewDimensions.
Definition inputBottom : number := inputTop + inputOffsetHeight.

Definition safeAreaTop : number := contentTop scrollViewDimensions.
Definition safeAreaHeight : number :=
  (plaformHeight - keyboardHeight - safeAreaTop) / 2.
Definition safeAreaBottom : number := safeAreaTop + safeAreaHeight.

Definition inputTopWithinSafeArea : bool :=
  ge inputTop safeAreaTop && le inputTop safeAreaBottom.
Definition inputTopAboveSafeArea : bool := lt inputTop safeAreaTop.
Definition inputTopBelowSafeArea : bool := gt inputTop safeAreaBottom.
Definition inputBottomWithinSafeArea : bool :=
  ge inputBottom safeAreaTop && le inputBottom safeAreaBottom.
Definition inputBottomBelowSafeArea : bool := gt inputBottom safeAreaBottom.

(** The value of [scrollData.scrollAmount] after the first
    conditional of the auto-scroll block. *)
Definition scrollAmount_unclamped : number :=
  if gt safeAreaHeight inputOffsetHeight
  then Math_round (safeAreaBottom - inputBottom)
  else Math_round (safeAreaTop - inputTop).

(** ... and after the second one, which caps it at the input height. *)
Definition scrollAmount_clamped : number :=
  if inputTopAboveSafeArea && gt scrollAmount_unclamped inputOffsetHeight
  then inputOffsetHeight
  else scrollAmount_unclamped.

Definition getScrollData : ScrollData :=
  let scrollData0 :=
    {| scrollAmount := 0; scrollTo := 0; scrollPadding := 0; inputSafeY := 0 |} in
  if inputTopWithinSafeArea && inputBottomWithinSafeArea then
    scrollData0
  else
    let scrollData1 :=
      if inputTopBelowSafeArea || inputBottomBelowSafeArea || inputTopAboveSafeArea
      then {| scrollAmount := scrollAmount_clamped;
              scrollTo := scrollTo scrollData0;
              scrollPadding := scrollPadding scrollData0;
              inputSafeY := - (inputTop - safeAreaTop) + 4 |}
      else scrollData0 in
    {| scrollAmount := scrollAmount scrollData1;
       scrollTo := scrollTop scrollViewDimensions - scrollAmount scrollData1;
       scrollPadding := keyboardHeight;
       inputSafeY := inputSafeY scrollData1 |}.

End ScrollGeometry.

Definition getScrollAssistDuration (distanceToScroll : number) : number :=
  let distanceToScroll := Math_abs distanceToScroll in
  let duration := distanceToScroll / SCROLL_ASSIST_SPEED in
  Math_min 400 (Math_max 150 duration).

(** ** DOM state of one field *)

(** The values the component assigns to the [transform] style of the
    native element. *)
Inductive Transform : Type :=
| TransformNone                         (* ''                              *)
| TransformScale0                       (* 'scale(0)'                      *)
| TransformTranslate3d (y : number).    (* `translate3d(-9999px,${y}px,0)` *)

(** An element produced by [cloneInputComponent]: the shallow copy of
    the component with the copy of the native element inside. *)
Record ClonedEle : Type := {
  cloned_ariaHidden : string;
  cloned_pointerEvents : string;
  cloned_position : string;
  cloned_top : number;
  cloned_left : number;
  cloned_width : number;
  cloned_height : number;
  cloned_native_value : string;
  cloned_native_tabIndex : Z
}.

(** The [<ion-input>]/[<ion-textarea>] host, its native element and the
    [.cloned-input] elements under the host's parent. *)
Record Dom : Type := {
  host_autofocus : bool;          (* hasAttribute('autofocus')            *)
  host_offsetTop : number;
  host_offsetLeft : number;
  host_offsetWidth : number;
  host_offsetHeight : number;
  host_pointerEvents : string;
  host_hasParent : bool;          (* parentNode / parentElement non-null  *)
  native_inHost : bool;           (* closest('ion-input,ion-textarea')    *)
  native_value : string;
  native_transform : Transform;
  native_opacity : string;
  clonedInputEles : list ClonedEle  (* parent.querySelectorAll('.cloned-input') *)
}.

Definition set_host_autofocus (b : bool) (d : Dom) : Dom :=
  {| host_autofocus := b; host_offsetTop := host_offsetTop d;
     host_offsetLeft := host_offsetLeft d; host_offsetWidth := host_offsetWidth d;
     host_offsetHeight := host_offsetHeight d; host_pointerEvents := host_pointerEvents d;
     host_hasParent := host_hasParent d; native_inHost := native_inHost d;
     native_value := native_value d; native_transform := native_transform d;
     native_opacity := native_opacity d; clonedInputEles := clonedInputEles d |}.

Definition set_host_pointerEvents (v : string) (d : Dom) : Dom :=
  {| host_autofocus := host_autofocus d; host_offsetTop := host_offsetTop d;
     host_offsetLeft := host_offsetLeft d; host_offsetWidth := host_offsetWidth d;
     host_offsetHeight := host_offsetHeight d; host_pointerEvents := v;
     host_hasParent := host_hasParent d; native_inHost := native_inHost d;
     native_value := native_value d; native_transform := native_transform d;
     native_opacity := native_opacity d; clonedInputEles := clonedInputEles d |}.

Definition set_native_transform (v : Transform) (d : Dom) : Dom :=
  {| host_autofocus := host_autofocus d; host_offsetTop := host_offsetTop d;
     host_offsetLeft := host_offsetLeft d; host_offsetWidth := host_offsetWidth d;
     host_offsetHeight := host_offsetHeight d; host_pointerEvents := host_pointerEvents d;
     host_hasParent := host_hasParent d; native_inHost := native_inHost d;
     native_value := native_value d; native_transform := v;
     native_opacity := native_opacity d; clonedInputEles := clonedInputEles d |}.

Definition set_native_opacity (v : string) (d : Dom) : Dom :=
  {| host_autofocus := host_autofocus d; host_offsetTop := host_offsetTop d;
     host_offsetLeft := host_offsetLeft d; host_offsetWidth := host_offsetWidth d;
     host_offsetHeight := host_offsetHeight d; host_pointerEvents := host_pointerEvents d;
     host_hasParent := host_hasParent d; native_inHost := native_inHost d;
     native_value := native_value d; native_transform := native_transform d;
     native_opacity := v; clonedInputEles := clonedInputEles d |}.

Definition set_clonedInputEles (v : list ClonedEle) (d : Dom) : Dom :=
  {| host_autofocus := host_autofocus d; host_offsetTop := host_offsetTop d;
     host_offsetLeft := host_offsetLeft d; host_offsetWidth := host_offsetWidth d;
     host_offsetHeight := host_offsetHeight d; host_pointerEvents := host_pointerEvents d;
     host_hasParent := host_hasParent d; native_inHost := native_inHost d;
     native_value := native_value d; native_transform := native_transform d;
     native_opacity := native_opacity d; clonedInputEles := v |}.

(** ** The component and its collaborators *)

Record PointerCoordinates : Type := { x : number; y : number }.

(** A pointer event, as far as the handlers read it. *)
Record PointerEvent : Type := { ev_coord : PointerCoordinates }.

(** Modelled from the spec: [pointerCoord] of util/dom is not among the
    sources; it is the coordinate extraction of the pointer event stream. *)
Definition pointerCoord (ev : PointerEvent) : PointerCoordinates := ev_coord ev.

(** The [Content] collaborator: what [getContentDimensions()] returns. *)
Record Content : Type := { getContentDimensions : ContentDimensions }.

Record TextInput : Type := {
  _autoFocusAssist : string;
  _clearOnEdit : option bool;        (* [None] is [undefined] *)
  _didBlurAfterEdit : option bool;   (* [None] is [undefined] *)
  _keyboardHeight : number;
  _type : string;
  _scrollData : option ScrollData;
  _value : string;                   (* BaseInput *)
  _isFocus : bool;                   (* BaseInput *)
  _content : option Content;         (* @Optional() *)
  _native : Dom
}.

Definition set__clearOnEdit (v : option bool) (t : TextInput) : TextInput :=
  {| _autoFocusAssist := _autoFocusAssist t; _clearOnEdit := v;
     _didBlurAfterEdit := _didBlurAfterEdit t; _keyboardHeight := _keyboardHeight t;
     _type := _type t; _scrollData := _scrollData t; _value := _value t;
     _isFocus := _isFocus t; _content := _content t; _native := _native t |}.

Definition set__didBlurAfterEdit (v : option bool) (t : TextInput) : TextInput :=
  {| _autoFocusAssist := _autoFocusAssist t; _clearOnEdit := _clearOnEdit t;
     _didBlurAfterEdit := v; _keyboardHeight := _keyboardHeight t;
     _type := _type t; _scrollData := _scrollData t; _value := _value t;
     _isFocus := _isFocus t; _content := _content t; _native := _native t |}.

Definition set__scrollData (v : option ScrollData) (t : TextInput) : TextInput :=
  {| _autoFocusAssist := _autoFocusAssist t; _clearOnEdit := _clearOnEdit t;
     _didBlurAfterEdit := _didBlurAfterEdit t; _keyboardHeight := _keyboardHeight t;
     _type := _type t; _scrollData := v; _value := _value t;
     _isFocus := _isFocus t; _content := _content t; _native := _native t |}.

Definition set__value (v : string) (t : TextInput) : TextInput :=
  {| _autoFocusAssist := _autoFocusAssist t; _clearOnEdit := _clearOnEdit t;
     _didBlurAfterEdit := _didBlurAfterEdit t; _keyboardHeight := _keyboardHeight t;
     _type := _type t; _scrollData := _scrollData t; _value := v;
     _isFocus := _isFocus t; _content := _content t; _native := _native t |}.

Definition set__isFocus (v : bool) (t : TextInput) : TextInput :=
  {| _autoFocusAssist := _autoFocusAssist t; _clearOnEdit := _clearOnEdit t;
     _didBlurAfterEdit := _didBlurAfterEdit t; _keyboardHeight := _keyboardHeight t;
     _type := _type t; _scrollData := _scrollData t; _value := _value t;
     _isFocus := v; _content := _content t; _native := _native t |}.

Definition set__native (v : Dom) (t : TextInput) : TextInput :=
  {| _autoFocusAssist := _autoFocusAssist t; _clearOnEdit := _clearOnEdit t;
     _didBlurAfterEdit := _didBlurAfterEdit t; _keyboardHeight := _keyboardHeight t;
     _type := _type t; _scrollData := _scrollData t; _value := _value t;
     _isFocus := _isFocus t; _content := _content t; _native := v |}.

(** Calls made on the collaborators (the event, the [App] gate, the
    native element, the scroll view, the platform), in program order. *)
Inductive Effect : Type :=
| EvPreventDefault
| EvStopPropagation
| AppSetEnabled (isEnabled : bool) (duration : option number)
| NativeFocus
| ContentScrollTo (x y duration : number)   (* the [done] callback is [scrollToDone] *)
| PlatformTimeout (ms : number).            (* the callback focuses the native element *)

(** Everything one field's handlers read and write: the component, the
    live readings taken in [initFocus], the variables captured by the
    closures of [_enableScrollAssist], and the calls made so far.  The
    gate lives in [App] and re-opens with time: what [isEnabled()]
    answers is an input of each handler, and the [setEnabled] calls are
    recorded in [log]. *)
Record World : Type := {
  self : TextInput;
  ele_offsetTop : number;        (* closest ion-item, or the host *)
  ele_offsetHeight : number;
  plt_height : number;           (* [_plt.height()] *)
  app_isEnabled : bool;          (* [_app.isEnabled()], read at each handler *)
  coord : option PointerCoordinates;
  relocated : bool;
  clone : bool;                  (* config 'inputCloning' *)
  log : list Effect
}.

Definition upd_self (f : TextInput -> TextInput) (w : World) : World :=
  {| self := f (self w); ele_offsetTop := ele_offsetTop w;
     ele_offsetHeight := ele_offsetHeight w; plt_height := plt_height w;
     app_isEnabled := app_isEnabled w; coord := coord w;
     relocated := relocated w; clone := clone w; log := log w |}.

Definition set_coord (v : option PointerCoordinates) (w : World) : World :=
  {| self := self w; ele_offsetTop := ele_offsetTop w;
     ele_offsetHeight := ele_offsetHeight w; plt_height := plt_height w;
     app_isEnabled := app_isEnabled w; coord := v;
     relocated := relocated w; clone := clone w; log := log w |}.

Definition set_relocated (v : bool) (w : World) : World :=
  {| self := self w; ele_offsetTop := ele_offsetTop w;
     ele_offsetHeight := ele_offsetHeight w; plt_height := plt_height w;
     app_isEnabled := app_isEnabled w; coord := coord w;
     relocated := v; clone := clone w; log := log w |}.

Definition add_log (e : Effect) (w : World) : World :=
  {| self := self w; ele_offsetTop := ele_offsetTop w;
     ele_offsetHeight := ele_offsetHeight w; plt_height := plt_height w;
     app_isEnabled := app_isEnabled w; coord := coord w;
     relocated := relocated w; clone := clone w; log := log w ++ [e] |}.

Definition upd_dom (f : Dom -> Dom) : World -> World :=
  upd_self (fun t => set__native (f (_native t)) t).

(** ** Handlers as state transformers that may throw *)

Inductive JsError : Type :=
| TypeError
| AssertionFailed (reason : string).

Inductive Outcome (A : Type) : Type :=
| Returned (a : A)
| Threw (e : JsError).
Arguments Returned {A} a.
Arguments Threw {A} e.

(** A handler maps the world to an outcome and the world it leaves
    behind; an exception keeps the mutations made before it. *)
Definition M (A : Type) : Type := World -> Outcome A * World.

Definition ret {A} (a : A) : M A := fun w => (Returned a, w).

Definition bind {A B} (c : M A) (k : A -> M B) : M B :=
  fun w => match c w with
           | (Returned a, w') => k a w'
           | (Threw e, w') => (Threw e, w')
           end.

Definition throw {A} (e : JsError) : M A := fun w => (Threw e, w).
Definition gets {A} (f : World -> A) : M A := fun w => (Returned (f w), w).
Definition modify (f : World -> World) : M unit := fun w => (Returned tt, f w).
Definition call (e : Effect) : M unit := modify (add_log e).

Declare Scope js_scope.
Delimit Scope js_scope with js.
Notation "x <- c ;; k" := (bind c (fun x => k))
  (at level 61, c at next level, right associativity) : js_scope.
Notation "c ;; k" := (bind c (fun _ => k))
  (at level 61, right associativity) : js_scope.
Local Open Scope js_scope.

(** The receiver of a function call: a plain call [f(...)] of a nested
    function has no receiver, a method call [o.f(...)] has [o]. *)
Inductive ThisBinding : Type :=
| ThisUndefined
| ThisTextInput.

(** [this._native.nativeElement]: reading a property of [undefined]
    throws. *)
Definition this_native (this : ThisBinding) : M Dom :=
  match this with
  | ThisUndefined => throw TypeError
  | ThisTextInput => gets (fun w => _native (self w))
  end.

(** ** Clone helpers *)

Definition dom (w : World) : Dom := _native (self w).

(** What [cloneInputComponent] appends under the host's parent. *)
Definition clonedComponentEle (d : Dom) : ClonedEle :=
  {| cloned_ariaHidden := "true";
     cloned_pointerEvents := "none";
     cloned_position := "absolute";
     cloned_top := host_offsetTop d;
     cloned_left := host_offsetLeft d;
     cloned_width := host_offsetWidth d;
     cloned_height := host_offsetHeight d;
     cloned_native_value := native_value d;
     cloned_native_tabIndex := (-1)%Z |}.

Definition cloneInputComponent : M unit :=
  d <- gets dom ;;
  (if native_inHost d then
     (* srcComponentEle.parentNode.appendChild(...) *)
     if host_hasParent d then
       modify (upd_dom (fun d =>
         set_host_pointerEvents "none"
           (set_clonedInputEles (clonedInputEles d ++ [clonedComponentEle d]) d)))
     else throw TypeError
   else ret tt) ;;
  modify (upd_dom (set_native_transform TransformScale0)).

Definition removeClone : M unit :=
  d <- gets dom ;;
  (if native_inHost d && host_hasParent d then
     modify (upd_dom (fun d =>
       set_host_pointerEvents "" (set_clonedInputEles [] d)))
   else ret tt) ;;
  modify (upd_dom (set_native_transform TransformNone)) ;;
  modify (upd_dom (set_native_opacity "")).

(** [hideFocus] of [_enableBlurOnScrolling]; it reaches the component
    through [self]. *)
Definition hideFocus (shouldHideFocus : bool) : M unit :=
  if shouldHideFocus then
    cloneInputComponent ;;
    modify (upd_dom (set_native_transform TransformScale0))
  else
    removeClone.

(** ** Methods of [TextInput] *)

(** Modelled from the spec: [isTrueProperty] of util/util is not among
    the sources; on a boolean the property coercion is the boolean. *)
Definition isTrueProperty (val : bool) : bool := val.

(** Truthiness of a field declared [boolean] and left uninitialised. *)
Definition truthy (v : option bool) : bool :=
  match v with Some true => true | _ => false end.

(** [v !== false] *)
Definition not_false (v : option bool) : bool :=
  match v with Some false => false | _ => true end.

Definition get_clearOnEdit (t : TextInput) : option bool := _clearOnEdit t.
Definition set_clearOnEdit (val : bool) (t : TextInput) : TextInput :=
  set__clearOnEdit (Some (isTrueProperty val)) t.

Definition get_type (t : TextInput) : string := _type t.

(** Modelled from the spec: [isFocus] of BaseInput is not among the
    sources; it reports whether the field has focus. *)
Definition isFocus (t : TextInput) : bool := _isFocus t.

Definition clearTextInput (t : TextInput) : TextInput := set__value "" t.

Definition ngOnInit : M unit :=
  t <- gets self ;;
  (if not_false (get_clearOnEdit t) && String.eqb (get_type t) "password"
   then modify (upd_self (set_clearOnEdit true))
   else ret tt) ;;
  d <- gets dom ;;
  if host_autofocus d then
    modify (upd_dom (set_host_autofocus false)) ;;
    if String.eqb (_autoFocusAssist t) "immediate" then call NativeFocus
    else if String.eqb (_autoFocusAssist t) "delay" then call (PlatformTimeout 650)
    else ret tt
  else ret tt.

Definition setFocus : M unit :=
  t <- gets self ;;
  if isFocus t then call NativeFocus else ret tt.

(** The method [initFocus] of the class (the one [Form.tabFocus] calls). *)
Definition TextInput_initFocus : M unit := setFocus.

Section AbsentHelpers.

(** [hasValue] of BaseInput and [hasPointerMoved] of util/dom are not
    among the sources: the component is embedded over any such pair. *)
Variable hasValue : string -> bool.
Variable hasPointerMoved :
  number -> option PointerCoordinates -> PointerCoordinates -> bool.

(** The item's ['input-has-focus'] class, toggled first, is styling on
    a collaborator and leaves the component's fields alone. *)
Definition _inputFocusChanged (hasFocus : bool) (t : TextInput) : TextInput :=
  if truthy (_clearOnEdit t) && negb hasFocus && hasValue (_value t)
  then set__didBlurAfterEdit (Some true) t
  else t.

Definition checkClearOnEdit (inputValue : string) (t : TextInput) : TextInput :=
  if negb (truthy (_clearOnEdit t)) then t
  else
    let t1 :=
      if truthy (_didBlurAfterEdit t) && hasValue (_value t)
      then clearTextInput t
      else t in
    set__didBlurAfterEdit (Some false) t1.

(** [ev] is [None] for a missing event and [Some v] for an event whose
    [target.value] is [v]. *)
Definition onKeydown (ev : option string) (t : TextInput) : TextInput :=
  match ev with
  | Some v => if truthy (_clearOnEdit t) then checkClearOnEdit v t else t
  | None => t
  end.

(** *** The closures of [_enableScrollAssist] *)

(** Modelled from the spec: [assert] of util/util is not among the
    sources; a failed assertion throws, carrying its reason. *)
Definition assert (actual : bool) (reason : string) : M unit :=
  if actual then ret tt else throw (AssertionFailed reason).

(** Truthiness of [coord]: [null] until a pointer-down is recorded. *)
Definition is_recorded (c : option PointerCoordinates) : bool :=
  match c with Some _ => true | None => false end.

Definition pointerDown (ev : PointerEvent) : M bool :=
  enabled <- gets app_isEnabled ;;
  if enabled then
    modify (set_coord (Some (pointerCoord ev))) ;;
    ret true
  else ret false.

Definition beginFocus (this : ThisBinding)
           (shouldFocus : bool) (inputRelativeY : number) : M unit :=
  r <- gets relocated ;;
  if Bool.eqb r shouldFocus then ret tt
  else
    modify (set_relocated shouldFocus) ;;
    (* const focusedInputEle = this._native.nativeElement; *)
    _ <- this_native this ;;
    if shouldFocus then
      cloneInputComponent ;;
      modify (upd_dom (set_native_transform (TransformTranslate3d inputRelativeY))) ;;
      modify (upd_dom (set_native_opacity "0"))
    else
      removeClone.

(** The [done] callback handed to [content.scrollTo]. *)
Definition scrollToDone : M unit :=
  c <- gets clone ;;
  (if c then beginFocus ThisUndefined false 0 else ret tt) ;;
  call (AppSetEnabled true None).

(** The nested [initFocus].  [beginFocus] is called as a plain
    function, so it runs without a receiver. *)
Definition initFocus : M unit :=
  t <- gets self ;;
  match _content t with
  | None => setFocus
  | Some content =>
      eleTop <- gets ele_offsetTop ;;
      eleHeight <- gets ele_offsetHeight ;;
      pltHeight <- gets plt_height ;;
      let scrollData :=
        getScrollData eleTop eleHeight (getContentDimensions content)
                      (_keyboardHeight t) pltHeight in
      modify (upd_self (set__scrollData (Some scrollData))) ;;
      if lt (Math_abs (scrollAmount scrollData)) 4 then
        setFocus ;;
        call (AppSetEnabled true None)
      else
        let scrollDuration := getScrollAssistDuration (scrollAmount scrollData) in
        call (AppSetEnabled false (Some scrollDuration)) ;;
        c <- gets clone ;;
        (if c then beginFocus ThisUndefined true (inputSafeY scrollData)
         else ret tt) ;;
        setFocus ;;
        call (ContentScrollTo 0 (scrollTo scrollData) scrollDuration)
  end.

Definition pointerUp (ev : PointerEvent) : M unit :=
  enabled <- gets app_isEnabled ;;
  if negb enabled then
    call EvPreventDefault ;;
    call EvStopPropagation
  else
    c <- gets coord ;;
    assert (is_recorded c) "coord must be valid" ;;
    let endCoord := pointerCoord ev in
    t <- gets self ;;
    (if negb (hasPointerMoved 8 c endCoord) && negb (isFocus t) then
       call EvPreventDefault ;;
       call EvStopPropagation ;;
       initFocus
     else ret tt) ;;
    modify (set_coord None).

(** *** What happens to a field between two blurs *)

(** A keystroke reaches [onKeydown] with the value the element then
    holds; typed text reaches the component through the two-way binding
    of [value] (the setter is BaseInput's and writes [_value]); a focus
    change reaches [_inputFocusChanged]. *)
Inductive FieldStep : Type :=
| StepKeydown (targetValue : string)
| StepTyped (newValue : string)
| StepFocus.

Definition field_step (t : TextInput) (s : FieldStep) : TextInput :=
  match s with
  | StepKeydown v => onKeydown (Some v) t
  | StepTyped v => set__value v t
  | StepFocus => _inputFocusChanged true t
  end.

Definition field_steps (steps : list FieldStep) (t : TextInput) : TextInput :=
  fold_left field_step steps t.

End AbsentHelpers.

(** Modelled from the spec: [hasValue] of BaseInput is not among the
    sources; a field has a value when its value is non-empty. *)
Definition hasValue_spec (v : string) : bool := negb (String.eqb v "").

(** Modelled from the spec: [hasPointerMoved] of util/dom is not among
    the sources; the pointer has moved when its displacement from the
    recorded coordinate reaches the threshold (nothing recorded, nothing
    moved). *)
Definition hasPointerMoved_spec (threshold : number)
           (startCoord : option PointerCoordinates)
           (endCoord : PointerCoordinates) : bool :=
  match startCoord with
  | Some s =>
      let deltaX := x s - x endCoord in
      let deltaY := y s - y endCoord in
      le (threshold * threshold) (deltaX * deltaX + deltaY * deltaY)
  | None => false
  end.

(** The duration mapping in the specification's words:
    [clamp(v, lo, hi)] is [v] brought back into the range from [lo] to
    [hi].  It is compared with [getScrollAssistDuration] below. *)
Definition clamp (v lo hi : number) : number :=
  if lt v lo then lo else if lt hi v then hi else v.

(** ** Fixtures *)

Definition zeroScrollData : ScrollData :=
  {| scrollAmount := 0; scrollTo := 0; scrollPadding := 0; inputSafeY := 0 |}.

Definition dims0 : ContentDimensions :=
  {| contentTop := 0; contentHeight := 640; scrollTop := 0; scrollHeight := 2000 |}.

Definition dom0 : Dom :=
  {| host_autofocus := false;
     host_offsetTop := 500; host_offsetLeft := 16;
     host_offsetWidth := 288; host_offsetHeight := 40;
     host_pointerEvents := ""; host_hasParent := true; native_inHost := true;
     native_value := ""; native_transform := TransformNone;
     native_opacity := ""; clonedInputEles := [] |}.

Definition input0 : TextInput :=
  {| _autoFocusAssist := "delay"; _clearOnEdit := None;
     _didBlurAfterEdit := None; _keyboardHeight := 260; _type := "text";
     _scrollData := None; _value := ""; _isFocus := false;
     _content := Some {| getContentDimensions := dims0 |};
     _native := dom0 |}.

(** A field 500px down a page scrolled to the top, on a 640px screen
    with a 260px keyboard. *)
Definition world0 (cloning : bool) : World :=
  {| self := input0; ele_offsetTop := 500; ele_offsetHeight := 40;
     plt_height := 640; app_isEnabled := true; coord := None;
     relocated := false; clone := cloning; log := [] |}.

(** The same field after a pointer-down at (100,100). *)
Definition world_down (cloning : bool) : World :=
  set_coord (Some {| x := 100; y := 100 |}) (world0 cloning).

Definition tapUp : PointerEvent := {| ev_coord := {| x := 103; y := 104 |} |}.
Definition dragUp : PointerEvent := {| ev_coord := {| x := 100; y := 120 |} |}.

Definition password0 : TextInput :=
  set__value "hunter2" {|
     _autoFocusAssist := "delay"; _clearOnEdit := None;
     _didBlurAfterEdit := None; _keyboardHeight := 260; _type := "password";
     _scrollData := None; _value := ""; _isFocus := true;
     _content := None; _native := dom0 |}.

(** The password field in a world, before [ngOnInit]. *)
Definition password_world : World :=
  upd_self (fun _ => password0) (world0 false).

(** A content area pushed down by 100px under a keyboard that leaves
    less than that: the safe area's height is negative. *)
Definition dims_squeezed : ContentDimensions :=
  {| contentTop := 100; contentHeight := 540; scrollTop := 0; scrollHeight := 2000 |}.

(** ** The rest of the component *)

Definition ALLOWED_TYPES : list string :=
  ["password"; "email"; "number"; "search"; "tel"; "url";
   "date"; "month"; "time"; "week"]%string.

(** A value handed to an [any]-typed input: a string, or anything else. *)
Inductive JsValue : Type :=
| JsString (s : string)
| JsNotString.

Definition set__type (v : string) (t : TextInput) : TextInput :=
  {| _autoFocusAssist := _autoFocusAssist t; _clearOnEdit := _clearOnEdit t;
     _didBlurAfterEdit := _didBlurAfterEdit t; _keyboardHeight := _keyboardHeight t;
     _type := v; _scrollData := _scrollData t; _value := _value t;
     _isFocus := _isFocus t; _content := _content t; _native := _native t |}.

Section TypeInput.

(** [String.prototype.toLowerCase], a built-in the embedding leaves open. *)
Variable toLowerCase : string -> string.

(** The setter of [type].  [_isTextarea], fixed by the constructor from
    the host's tag name, is passed along with the component. *)
Definition set_type (_isTextarea : bool) (val : JsValue) (t : TextInput) : TextInput :=
  if _isTextarea then t
  else
    let t1 := set__type "text" t in
    match val with
    | JsString s =>
        let val := toLowerCase s in
        (* ALLOWED_TYPES.indexOf(val) >= 0 *)
        if existsb (String.eqb val) ALLOWED_TYPES then set__type val t1 else t1
    | JsNotString => t1
    end.

End TypeInput.

(** The scroll view once it has reached the position [scrollTop]. *)
Definition scrolledTo (scrollTop' : number) (d : ContentDimensions) : ContentDimensions :=
  {| contentTop := contentTop d; contentHeight := contentHeight d;
     scrollTop := scrollTop'; scrollHeight := scrollHeight d |}.

(** Run a handler [n] times in a row, stopping at the first throw. *)
Fixpoint times (n : nat) (c : M unit) : M unit :=
  match n with
  | O => ret tt
  | S n' => c ;; times n' c
  end.

Section FieldEvents.

Variable hasValue : string -> bool.

(** What reaches a field that nobody types into: keystrokes, blurs and
    focuses. *)
Inductive FieldEvent : Type :=
| EventKeydown (targetValue : string)
| EventBlur
| EventFocus.

Definition field_event (t : TextInput) (e : FieldEvent) : TextInput :=
  match e with
  | EventKeydown v => onKeydown hasValue (Some v) t
  | EventBlur => _inputFocusChanged hasValue false t
  | EventFocus => _inputFocusChanged hasValue true t
  end.

Definition field_events (events : list FieldEvent) (t : TextInput) : TextInput :=
  fold_left field_event events t.

End FieldEvents.

(** ** The form registry (util/form.ts) *)

Module FormUtil.

(** An input is known to the form by reference. *)
Definition IonicFormInput := nat.

Record Form : Type := {
  _focused : option IonicFormInput;   (* [None] is [null] *)
  _ids : Z;
  _inputs : list IonicFormInput
}.

Definition newForm : Form :=
  {| _focused := None; _ids := (-1)%Z; _inputs := [] |}.

(** [Array.prototype.indexOf]: the first position of [x], or -1. *)
Fixpoint indexOf (l : list IonicFormInput) (x : IonicFormInput) : Z :=
  match l with
  | [] => (-1)%Z
  | y :: l' =>
      if Nat.eqb y x then 0%Z
      else let i := indexOf l' x in
           if (i <? 0)%Z then (-1)%Z else (i + 1)%Z
  end.

(** [indexOf] of a reference that may be [null]; no input is [null]. *)
Definition indexOf_ref (l : list IonicFormInput) (x : option IonicFormInput) : Z :=
  match x with
  | Some i => indexOf l i
  | None => (-1)%Z
  end.

(** [input === this._focused] *)
Definition is_focused (f : Form) (input : IonicFormInput) : bool :=
  match _focused f with
  | Some i => Nat.eqb input i
  | None => false
  end.

Definition register (input : IonicFormInput) (f : Form) : Form :=
  {| _focused := _focused f; _ids := _ids f; _inputs := _inputs f ++ [input] |}.

Definition setAsFocused (input : IonicFormInput) (f : Form) : Form :=
  {| _focused := Some input; _ids := _ids f; _inputs := _inputs f |}.

Definition unsetAsFocused (input : IonicFormInput) (f : Form) : Form :=
  if is_focused f input
  then {| _focused := None; _ids := _ids f; _inputs := _inputs f |}
  else f.

Section Deregister.

(** [removeArrayItem] of util/util is not among the sources: the form
    is embedded over any such function. *)
Variable removeArrayItem :
  list IonicFormInput -> IonicFormInput -> list IonicFormInput.

Definition deregister (input : IonicFormInput) (f : Form) : Form :=
  unsetAsFocused input
    {| _focused := _focused f; _ids := _ids f;
       _inputs := removeArrayItem (_inputs f) input |}.

End Deregister.

(** [tabFocus] calls [initFocus()] on at most one input: the result is
    that input.  An index tested to be in range always finds an
    element. *)
Definition tabFocus (f : Form) (currentInput : IonicFormInput)
  : option IonicFormInput :=
  let inputs := _inputs f in
  let index := (indexOf (_inputs f) currentInput + 1)%Z in
  let next :=
    if (0 <? index)%Z && (index <? Z.of_nat (List.length inputs))%Z then
      match nth_error inputs (Z.to_nat index) with
      | Some nextInput =>
          if negb (is_focused f nextInput) then Some nextInput else None
      | None => None
      end
    else None in
  match next with
  | Some nextInput => Some nextInput
  | None =>
      let index := indexOf_ref (_inputs f) (_focused f) in
      if (0 <? index)%Z then nth_error (_inputs f) (Z.to_nat (index - 1))
      else None
  end.

(** [++] on the counter.  [_ids] is a number: the integers it holds are
    exact up to 2^53 = 9007199254740992, where adding 1 no longer
    changes it.  The counter starts at -1 and only grows, so it stays
    between -1 and 2^53, the range this definition covers. *)
Definition increment (n : Z) : Z :=
  if (n <? 9007199254740992)%Z then (n + 1)%Z else n.

(** [++this._ids]: the id handed out and the form after it. *)
Definition nextId (f : Form) : Z * Form :=
  let id := increment (_ids f) in
  (id, {| _focused := _focused f; _ids := id; _inputs := _inputs f |}).

(** The ids of [n] calls in a row. *)
Fixpoint nextIds (n : nat) (f : Form) : list Z * Form :=
  match n with
  | O => ([], f)
  | S n' =>
      let (id, f1) := nextId f in
      let (ids, f2) := nextIds n' f1 in
      (id :: ids, f2)
  end.

End FormUtil.

(** ** The native bridge queue (NativeSync) *)

Module NativeSync.

Section Queue.

(** The [args] of an action are opaque to the queue. *)
Variable Args : Type.

Record Message : Type := { actionName : string; args : Args }.

(** The queue, and the messages handed to [window.IonicNativeUI.action]
    so far, in order. *)
Record State : Type := {
  _actionQueue : list Message;
  sent : list Message
}.

(** [hasNativeUI] is whether [window.IonicNativeUI] is there at the
    time of the call. *)
Definition _sendMessages (hasNativeUI : bool) (s : State) : State :=
  if negb hasNativeUI then s
  else {| _actionQueue := []; sent := sent s ++ _actionQueue s |}.

Definition action (hasNativeUI : bool) (name : string) (a : Args) (s : State) : State :=
  _sendMessages hasNativeUI
    {| _actionQueue := _actionQueue s ++ [{| actionName := name; args := a |}];
       sent := sent s |}.

(** A run of [action] calls, each with the bridge there or not. *)
Definition actions (calls : list (bool * Message)) (s : State) : State :=
  fold_left
    (fun s c => action (fst c) (actionName (snd c)) (args (snd c)) s)
    calls s.

End Queue.

End NativeSync.

(** ** The menu toggle (MenuToggle) *)

Module MenuToggle.

(** What [isHidden] asks of the menu and of the view controller. *)
Record Menu : Type := { _canOpen : bool; persistent : bool }.
Record ViewController : Type := { isFirst : bool }.

Record MenuToggle : Type := {
  menu : option Menu;                 (* [_menu.get(menuToggle)] *)
  _viewCtrl : option ViewController;  (* @Optional() *)
  _inNavbar : bool;
  _inToolbar : bool
}.

(** The flags as the constructor sets them from the optional navbar and
    toolbar. *)
Definition construct (m : option Menu) (viewCtrl : option ViewController)
           (hasNavbar hasToolbar : bool) : MenuToggle :=
  {| menu := m; _viewCtrl := viewCtrl;
     _inNavbar := hasNavbar;
     _inToolbar := hasToolbar || hasNavbar |}.

Definition isHidden (t : MenuToggle) : bool :=
  match _inNavbar t, _viewCtrl t with
  | true, Some viewCtrl =>
      match menu t with
      | None => true
      | Some m =>
          if negb (_canOpen m) then true
          else if isFirst viewCtrl then false
          else negb (persistent m)
      end
  | _, _ => false
  end.

End MenuToggle.

(** * Properties *)

(** ** Comparisons and rounding *)

Lemma le_true (a b : number) : le a b = true <-> a <= b.
Proof. unfold le. apply Qle_bool_iff. Qed.

Lemma le_false (a b : number) : le a b = false <-> b < a.
Proof.
  unfold le. split; intro H.
  - apply Qnot_le_lt. intro Hle. apply Qle_bool_iff in Hle. congruence.
  - destruct (Qle_bool a b) eqn:E; [|reflexivity].
    apply Qle_bool_iff in E. exfalso. apply (Qlt_not_le _ _ H E).
Qed.

Lemma lt_true (a b : number) : lt a b = true <-> a < b.
Proof.
  unfold lt. rewrite negb_true_iff. apply (le_false b a).
Qed.

Lemma lt_false (a b : number) : lt a b = false <-> b <= a.
Proof.
  unfold lt. rewrite negb_false_iff. apply (le_true b a).
Qed.

(** Replace every comparison of the goal by the order fact it decides. *)
Ltac cmp_cases :=
  repeat match goal with
  | |- context [le ?a ?b] =>
      let E := fresh "E" in
      destruct (le a b) eqn:E;
      [apply le_true in E | apply le_false in E]
  | |- context [lt ?a ?b] =>
      let E := fresh "E" in
      destruct (lt a b) eqn:E;
      [apply lt_true in E | apply lt_false in E]
  end.

Lemma Math_round_nonneg (v : number) : 0 <= v -> 0 <= Math_round v.
Proof.
  intro H. unfold Math_round.
  assert (Hz : (0 <= Qfloor (v + (1 # 2)))%Z).
  { change 0%Z with (Qfloor 0). apply Qfloor_resp_le. lra. }
  rewrite Zle_Qle in Hz. exact Hz.
Qed.

Lemma Math_round_nonpos (v : number) : v <= 0 -> Math_round v <= 0.
Proof.
  intro H. unfold Math_round.
  pose proof (Qfloor_le (v + (1 # 2))) as Hf.
  assert (Hlt : inject_Z (Qfloor (v + (1 # 2))) < inject_Z 1).
  { change (inject_Z 1) with 1. lra. }
  rewrite <- Zlt_Qlt in Hlt.
  assert (Hz : (Qfloor (v + (1 # 2)) <= 0)%Z) by lia.
  rewrite Zle_Qle in Hz. exact Hz.
Qed.

(** ** The geometry resolver *)

Section GeometryFacts.

Variables (inputOffsetTop inputOffsetHeight : number).
Variable dims : ContentDimensions.
Variables (keyboardHeight plaformHeight : number).

Local Abbreviation top := (inputTop inputOffsetTop dims).
Local Abbreviation bottom := (inputBottom inputOffsetTop inputOffsetHeight dims).
Local Abbreviation sTop := (safeAreaTop dims).
Local Abbreviation sHeight := (safeAreaHeight dims keyboardHeight plaformHeight).
Local Abbreviation sBottom := (safeAreaBottom dims keyboardHeight plaformHeight).
Local Abbreviation plan :=
  (getScrollData inputOffsetTop inputOffsetHeight dims keyboardHeight plaformHeight).
Local Abbreviation unclamped :=
  (scrollAmount_unclamped inputOffsetTop inputOffsetHeight dims
                          keyboardHeight plaformHeight).
Local Abbreviation clamped :=
  (scrollAmount_clamped inputOffsetTop inputOffsetHeight dims
                        keyboardHeight plaformHeight).

Lemma bottom_eq : bottom == top + inputOffsetHeight.
Proof. unfold inputBottom. reflexivity. Qed.

Lemma sBottom_eq : sBottom == sTop + sHeight.
Proof. unfold safeAreaBottom. reflexivity. Qed.

(** The both-edges-inside test, as an order fact. *)
Lemma within_true :
  inputTopWithinSafeArea inputOffsetTop dims keyboardHeight plaformHeight
  && inputBottomWithinSafeArea inputOffsetTop inputOffsetHeight dims
                               keyboardHeight plaformHeight = true
  <-> (sTop <= top /\ top <= sBottom) /\ (sTop <= bottom /\ bottom <= sBottom).
Proof.
  unfold inputTopWithinSafeArea, inputBottomWithinSafeArea, ge.
  rewrite !andb_true_iff, !le_true. tauto.
Qed.

(** With a non-negative height, a field that is not fully inside the
    safe area always enters the auto-scroll block. *)
Lemma outside_enters_block :
  0 <= inputOffsetHeight ->
  ~ ((sTop <= top /\ top <= sBottom) /\ (sTop <= bottom /\ bottom <= sBottom)) ->
  inputTopBelowSafeArea inputOffsetTop dims keyboardHeight plaformHeight
  || inputBottomBelowSafeArea inputOffsetTop inputOffsetHeight dims
                              keyboardHeight plaformHeight
  || inputTopAboveSafeArea inputOffsetTop dims = true.
Proof.
  intros Hh Hout.
  unfold inputTopBelowSafeArea, inputBottomBelowSafeArea,
    inputTopAboveSafeArea, gt.
  pose proof bottom_eq as Hb.
  cmp_cases; simpl; try reflexivity.
  exfalso. apply Hout. repeat split; lra.
Qed.

(** The plan of a field that is not fully inside the safe area. *)
Lemma plan_outside :
  0 <= inputOffsetHeight ->
  ~ ((sTop <= top /\ top <= sBottom) /\ (sTop <= bottom /\ bottom <= sBottom)) ->
  plan = {| scrollAmount := clamped;
            scrollTo := scrollTop dims - clamped;
            scrollPadding := keyboardHeight;
            inputSafeY := - (top - sTop) + 4 |}.
Proof.
  intros Hh Hout. unfold getScrollData.
  destruct (inputTopWithinSafeArea _ _ _ _ && inputBottomWithinSafeArea _ _ _ _ _)
    eqn:W.
  - apply within_true in W. contradiction.
  - rewrite (outside_enters_block Hh Hout). reflexivity.
Qed.

(** The plan of a field that is fully inside the safe area. *)
Lemma plan_inside :
  (sTop <= top /\ top <= sBottom) /\ (sTop <= bottom /\ bottom <= sBottom) ->
  plan = {| scrollAmount := 0; scrollTo := 0; scrollPadding := 0; inputSafeY := 0 |}.
Proof.
  intro Hin. unfold getScrollData.
  destruct (inputTopWithinSafeArea _ _ _ _ && inputBottomWithinSafeArea _ _ _ _ _)
    eqn:W.
  - reflexivity.
  - apply within_true in Hin. congruence.
Qed.

Lemma unclamped_above_nonneg :
  top < sTop -> 0 <= unclamped.
Proof.
  intro Ha. unfold scrollAmount_unclamped, gt.
  pose proof bottom_eq as Hb. pose proof sBottom_eq as Hs.
  cmp_cases; apply Math_round_nonneg; lra.
Qed.

Lemma clamped_above_bounds :
  0 <= inputOffsetHeight -> top < sTop ->
  0 <= clamped /\ clamped <= inputOffsetHeight.
Proof.
  intros Hh Ha. pose proof (unclamped_above_nonneg Ha) as Hu.
  unfold scrollAmount_clamped, inputTopAboveSafeArea, gt.
  cmp_cases; simpl; split; lra.
Qed.

Lemma clamped_below_nonpos :
  0 <= inputOffsetHeight -> sBottom < top -> sTop <= top ->
  clamped <= 0.
Proof.
  intros Hh Hb Ht.
  pose proof bottom_eq as Hbe. pose proof sBottom_eq as Hs.
  assert (Hu : unclamped <= 0).
  { unfold scrollAmount_unclamped, gt.
    cmp_cases; apply Math_round_nonpos; lra. }
  unfold scrollAmount_clamped, inputTopAboveSafeArea, gt.
  cmp_cases; simpl; lra.
Qed.

End GeometryFacts.

(** C1.  A field whose top and bottom both lie within the safe area
    (from [safeAreaTop] to [safeAreaBottom], bounds included) gets the
    all-zero plan: no scroll amount, no target, no padding, no safe
    offset. *)
Theorem getScrollData_within_safe_area
  (inputOffsetTop inputOffsetHeight : number) (dims : ContentDimensions)
  (keyboardHeight plaformHeight : number) :
  0 <= inputOffsetHeight ->
  safeAreaTop dims <= inputTop inputOffsetTop dims
    /\ inputTop inputOffsetTop dims <= safeAreaBottom dims keyboardHeight plaformHeight ->
  safeAreaTop dims <= inputBottom inputOffsetTop inputOffsetHeight dims
    /\ inputBottom inputOffsetTop inputOffsetHeight dims
       <= safeAreaBottom dims keyboardHeight plaformHeight ->
  getScrollData inputOffsetTop inputOffsetHeight dims keyboardHeight plaformHeight
  = {| scrollAmount := 0; scrollTo := 0; scrollPadding := 0; inputSafeY := 0 |}.
Proof.
  intros _ Htop Hbottom. apply plan_inside. split; assumption.
Qed.

Lemma getScrollData_within_safe_area_witness :
  getScrollData 100 40 dims0 260 640 = zeroScrollData.
Proof.
  apply (getScrollData_within_safe_area 100 40 dims0 260 640).
  - vm_compute. discriminate.
  - split; vm_compute; discriminate.
  - split; vm_compute; discriminate.
Defined.

(** The signs as the specification states them fail on its own example:
    the field at 500 is below the safe area (which ends at 190), it is
    not fully inside it, and its scroll amount is -350, not positive.
    Likewise the field at -30 is above the safe area and its scroll
    amount is 40, not negative. *)
Lemma scrollAmount_sign_counterexample :
  (0 <= 40
   /\ ~ ((safeAreaTop dims0 <= inputTop 500 dims0
          /\ inputTop 500 dims0 <= safeAreaBottom dims0 260 640)
         /\ (safeAreaTop dims0 <= inputBottom 500 40 dims0
             /\ inputBottom 500 40 dims0 <= safeAreaBottom dims0 260 640))
   /\ safeAreaBottom dims0 260 640 < inputTop 500 dims0
   /\ scrollAmount (getScrollData 500 40 dims0 260 640) == -350
   /\ ~ 0 < scrollAmount (getScrollData 500 40 dims0 260 640))
  /\ (inputTop (-30) dims0 < safeAreaTop dims0
      /\ scrollAmount (getScrollData (-30) 40 dims0 260 640) == 40
      /\ ~ scrollAmount (getScrollData (-30) 40 dims0 260 640) < 0).
Proof.
  split.
  - split; [vm_compute; discriminate|].
    split; [intros [[_ H] _]; vm_compute in H; apply H; reflexivity|].
    split; [vm_compute; reflexivity|].
    split; [vm_compute; reflexivity|].
    intro H. vm_compute in H. discriminate.
  - split; [vm_compute; reflexivity|].
    split; [vm_compute; reflexivity|].
    intro H. vm_compute in H. discriminate.
Qed.

(** C2 (amended).  With a non-negative height: a field whose top is
    above the safe area gets a scroll amount that is zero or positive; a
    field whose top is below the safe area's bottom, and not above its
    top, gets one that is zero or negative. *)
Theorem scrollAmount_sign
  (inputOffsetTop inputOffsetHeight : number) (dims : ContentDimensions)
  (keyboardHeight plaformHeight : number) :
  0 <= inputOffsetHeight ->
  (inputTop inputOffsetTop dims < safeAreaTop dims ->
   0 <= scrollAmount (getScrollData inputOffsetTop inputOffsetHeight dims
                                    keyboardHeight plaformHeight))
  /\ (safeAreaBottom dims keyboardHeight plaformHeight < inputTop inputOffsetTop dims ->
      safeAreaTop dims <= inputTop inputOffsetTop dims ->
      scrollAmount (getScrollData inputOffsetTop inputOffsetHeight dims
                                  keyboardHeight plaformHeight) <= 0).
Proof.
  intro Hh. split.
  - intro Ha. rewrite plan_outside; [simpl | assumption | intros [[H _] _]; lra].
    apply clamped_above_bounds; assumption.
  - intros Hb Ht. rewrite plan_outside; [simpl | assumption | intros [[_ H] _]; lra].
    apply clamped_below_nonpos; assumption.
Qed.

Lemma scrollAmount_sign_witness :
  0 <= scrollAmount (getScrollData (-30) 40 dims0 260 640)
  /\ scrollAmount (getScrollData 500 40 dims0 260 640) <= 0.
Proof.
  split.
  - apply (scrollAmount_sign (-30) 40 dims0 260 640).
    + vm_compute. discriminate.
    + vm_compute. reflexivity.
  - apply (scrollAmount_sign 500 40 dims0 260 640).
    + vm_compute. discriminate.
    + vm_compute. reflexivity.
    + vm_compute. discriminate.
Defined.

(** Rounding can bring the amount to zero on either side, so the signs
    are not strict: a field of height 0 half a pixel below the safe
    area, and one of height 0 above it. *)
Example scrollAmount_zero_below :
  safeAreaBottom dims0 260 641 < inputTop 191 dims0
  /\ scrollAmount (getScrollData 191 0 dims0 260 641) == 0.
Proof. split; vm_compute; reflexivity. Qed.

Example scrollAmount_zero_above :
  inputTop (-30) dims0 < safeAreaTop dims0
  /\ scrollAmount (getScrollData (-30) 0 dims0 260 640) == 0.
Proof. split; vm_compute; reflexivity. Qed.

(** When the safe area's height is negative a top can be below the
    safe area's bottom and above its top at once; the amount is then
    the one of a field above. *)
Example scrollAmount_squeezed :
  safeAreaBottom dims_squeezed 600 640 < inputTop (-20) dims_squeezed
  /\ inputTop (-20) dims_squeezed < safeAreaTop dims_squeezed
  /\ scrollAmount (getScrollData (-20) 40 dims_squeezed 600 640) == 20.
Proof. repeat split. Qed.

(** C3.  When the field's top is above the safe area and its height is
    non-negative, the magnitude of the scroll amount is at most the
    field's height. *)
Theorem scrollAmount_clamp
  (inputOffsetTop inputOffsetHeight : number) (dims : ContentDimensions)
  (keyboardHeight plaformHeight : number) :
  0 <= inputOffsetHeight ->
  inputTop inputOffsetTop dims < safeAreaTop dims ->
  Qabs (scrollAmount (getScrollData inputOffsetTop inputOffsetHeight dims
                                    keyboardHeight plaformHeight))
  <= inputOffsetHeight.
Proof.
  intros Hh Ha.
  rewrite plan_outside; [simpl | assumption | intros [[H _] _]; lra].
  destruct (clamped_above_bounds inputOffsetTop inputOffsetHeight dims
                                 keyboardHeight plaformHeight Hh Ha) as [H0 H1].
  apply Qabs_Qle_condition. split; lra.
Qed.

Lemma scrollAmount_clamp_witness :
  Qabs (scrollAmount (getScrollData (-30) 40 dims0 260 640)) <= 40.
Proof.
  apply (scrollAmount_clamp (-30) 40 dims0 260 640).
  - vm_compute. discriminate.
  - vm_compute. reflexivity.
Defined.

(** C5.  With a non-negative height, the padding of the plan is the
    keyboard height whenever the field is not fully inside the safe
    area, whatever the scroll amount; the plan of a field fully inside
    is the only one whose padding is the constant 0. *)
Theorem scrollPadding_is_keyboardHeight
  (inputOffsetTop inputOffsetHeight : number) (dims : ContentDimensions)
  (keyboardHeight plaformHeight : number) :
  0 <= inputOffsetHeight ->
  let fullyInside :=
    (safeAreaTop dims <= inputTop inputOffsetTop dims
     /\ inputTop inputOffsetTop dims <= safeAreaBottom dims keyboardHeight plaformHeight)
    /\ (safeAreaTop dims <= inputBottom inputOffsetTop inputOffsetHeight dims
        /\ inputBottom inputOffsetTop inputOffsetHeight dims
           <= safeAreaBottom dims keyboardHeight plaformHeight) in
  (~ fullyInside ->
   scrollPadding (getScrollData inputOffsetTop inputOffsetHeight dims
                                keyboardHeight plaformHeight) = keyboardHeight)
  /\ (fullyInside ->
      scrollPadding (getScrollData inputOffsetTop inputOffsetHeight dims
                                   keyboardHeight plaformHeight) = 0).
Proof.
  intros Hh fullyInside. split.
  - intro Hout. rewrite plan_outside by assumption. reflexivity.
  - intro Hin. rewrite plan_inside by assumption. reflexivity.
Qed.

Lemma scrollPadding_is_keyboardHeight_witness :
  scrollAmount (getScrollData 190 1 dims0 260 641) == 0
  /\ scrollPadding (getScrollData 190 1 dims0 260 641) = 260.
Proof.
  split.
  - vm_compute. reflexivity.
  - apply (scrollPadding_is_keyboardHeight 190 1 dims0 260 641).
    + vm_compute. discriminate.
    + intros [_ [_ H]]. vm_compute in H. apply H. reflexivity.
Defined.

(** ** The duration mapping *)

Lemma speed_quotient_mono (a b : number) :
  a <= b -> a / SCROLL_ASSIST_SPEED <= b / SCROLL_ASSIST_SPEED.
Proof.
  intro H. unfold Qdiv. apply Qmult_le_compat_r; [exact H|].
  vm_compute. discriminate.
Qed.

Lemma min_max_is_clamp (v lo hi : number) :
  lo <= hi -> Math_min hi (Math_max lo v) == clamp v lo hi.
Proof.
  intro Hlh. unfold clamp, Math_min, Math_max.
  cmp_cases.
  - rewrite (Q.max_l lo v) by lra. apply Q.min_r. exact Hlh.
  - rewrite (Q.max_r lo v) by lra. apply Q.min_l. lra.
  - rewrite (Q.max_r lo v) by lra. apply Q.min_r. lra.
Qed.

(** C6.  The duration is the quotient of the distance's magnitude by
    the speed 0.3, clamped to the range from 150 to 400: it is at least
    150, at most 400, does not decrease when the magnitude grows, and is
    the quotient itself whenever the quotient lies in the range. *)
Theorem getScrollAssistDuration_clamp (d d' : number) :
  getScrollAssistDuration d == clamp (Qabs d / (3 # 10)) 150 400
  /\ 150 <= getScrollAssistDuration d
  /\ getScrollAssistDuration d <= 400
  /\ (Qabs d <= Qabs d' ->
      getScrollAssistDuration d <= getScrollAssistDuration d')
  /\ (150 <= Qabs d / (3 # 10) /\ Qabs d / (3 # 10) <= 400 ->
      getScrollAssistDuration d == Qabs d / (3 # 10)).
Proof.
  unfold getScrollAssistDuration, Math_abs.
  change (3 # 10) with SCROLL_ASSIST_SPEED.
  repeat split.
  - apply min_max_is_clamp. vm_compute. discriminate.
  - apply Q.min_glb; [vm_compute; discriminate | apply Q.le_max_l].
  - apply Q.le_min_l.
  - intro H. apply Q.min_le_compat_l, Q.max_le_compat_l, speed_quotient_mono, H.
  - intros [Hlo Hhi]. unfold Math_min, Math_max.
    rewrite (Q.max_r 150 _ Hlo). apply Q.min_r. exact Hhi.
Qed.

Lemma getScrollAssistDuration_clamp_witness :
  getScrollAssistDuration 60 <= getScrollAssistDuration (-90)
  /\ getScrollAssistDuration 60 == 200.
Proof.
  destruct (getScrollAssistDuration_clamp 60 (-90)) as (_ & _ & _ & Hmono & Hid).
  split.
  - apply Hmono. vm_compute. discriminate.
  - rewrite Hid; [vm_compute; reflexivity|].
    split; vm_compute; discriminate.
Defined.

(** ** Focus *)

(** C10.  [setFocus] calls the native element's [focus()] exactly when
    the field already reports focus and does nothing at all otherwise;
    the class's [initFocus] is [setFocus]. *)
Theorem setFocus_only_when_focused (w : World) :
  (isFocus (self w) = true ->
   setFocus w = (Returned tt, add_log NativeFocus w))
  /\ (isFocus (self w) = false -> setFocus w = (Returned tt, w))
  /\ TextInput_initFocus w = setFocus w.
Proof.
  unfold TextInput_initFocus, setFocus, bind, gets, call, modify, ret.
  split; [|split].
  - intro H. rewrite H. reflexivity.
  - intro H. rewrite H. reflexivity.
  - reflexivity.
Qed.

Lemma setFocus_only_when_focused_witness :
  setFocus (world0 false) = (Returned tt, world0 false)
  /\ log (snd (setFocus (upd_self (set__isFocus true) (world0 false))))
     = [NativeFocus].
Proof.
  split.
  - apply (proj1 (proj2 (setFocus_only_when_focused (world0 false)))).
    reflexivity.
  - rewrite (proj1 (setFocus_only_when_focused
                      (upd_self (set__isFocus true) (world0 false))));
      reflexivity.
Defined.

(** ** Pointer handlers *)

(** Pointer-down records the coordinate when the gate is open and
    rejects the gesture otherwise. *)
Lemma pointerDown_cases (ev : PointerEvent) (w : World) :
  pointerDown ev w
  = if app_isEnabled w
    then (Returned true, set_coord (Some (pointerCoord ev)) w)
    else (Returned false, w).
Proof.
  unfold pointerDown, bind, gets, modify, ret. cbv beta iota.
  destruct (app_isEnabled w); reflexivity.
Qed.

(** With the gate open and no pointer-down recorded, the assertion on
    [coord] fails: pointer-up throws before it calls anything. *)
Lemma pointerUp_no_coord
  (hasPointerMoved : number -> option PointerCoordinates -> PointerCoordinates -> bool)
  (ev : PointerEvent) (w : World) :
  app_isEnabled w = true ->
  coord w = None ->
  pointerUp hasPointerMoved ev w
  = (Threw (AssertionFailed "coord must be valid"), w).
Proof.
  intros H Hc. unfold pointerUp, assert, bind, gets, throw. cbv beta iota.
  rewrite H. cbn [negb]. cbv beta iota. rewrite Hc. reflexivity.
Qed.

(** C7.  Pointer-up with the gate closed suppresses the default action
    and stops propagation, and initiates nothing.  With the gate open
    and a pointer-down coordinate recorded, a pointer that has not moved
    past the threshold of 8 from it, on a field without focus,
    suppresses the default action (and propagation) and runs the focus
    initiation; a pointer that has moved takes no focus action. *)
Theorem pointerUp_cases
  (hasPointerMoved : number -> option PointerCoordinates -> PointerCoordinates -> bool)
  (ev : PointerEvent) (w : World) (c : PointerCoordinates) :
  (app_isEnabled w = false ->
   pointerUp hasPointerMoved ev w
   = (Returned tt, add_log EvStopPropagation (add_log EvPreventDefault w)))
  /\ (app_isEnabled w = true ->
      coord w = Some c ->
      hasPointerMoved 8 (Some c) (pointerCoord ev) = false ->
      isFocus (self w) = false ->
      pointerUp hasPointerMoved ev w
      = (initFocus ;; modify (set_coord None))
          (add_log EvStopPropagation (add_log EvPreventDefault w)))
  /\ (app_isEnabled w = true ->
      coord w = Some c ->
      hasPointerMoved 8 (Some c) (pointerCoord ev) = true ->
      pointerUp hasPointerMoved ev w = (Returned tt, set_coord None w)).
Proof.
  unfold pointerUp, assert, bind, gets, call, modify, ret. cbv beta iota zeta.
  split; [|split].
  - intro H. rewrite H. reflexivity.
  - intros H Hc Hm Hf. rewrite H. cbn [negb]. cbv beta iota.
    rewrite Hc. cbn [is_recorded]. cbv beta iota. rewrite Hm, Hf. reflexivity.
  - intros H Hc Hm. rewrite H. cbn [negb]. cbv beta iota.
    rewrite Hc. cbn [is_recorded]. cbv beta iota. rewrite Hm. reflexivity.
Qed.

Lemma pointerUp_cases_witness :
  log (snd (pointerUp hasPointerMoved_spec tapUp (world_down false)))
  = [EvPreventDefault; EvStopPropagation;
     AppSetEnabled false (Some 400); ContentScrollTo 0 350 400]
  /\ log (snd (pointerUp hasPointerMoved_spec dragUp (world_down false))) = [].
Proof.
  destruct (pointerUp_cases hasPointerMoved_spec tapUp (world_down false)
                            {| x := 100; y := 100 |})
    as (_ & Htap & _).
  destruct (pointerUp_cases hasPointerMoved_spec dragUp (world_down false)
                            {| x := 100; y := 100 |})
    as (_ & _ & Hdrag).
  split.
  - rewrite Htap; reflexivity.
  - rewrite Hdrag; reflexivity.
Defined.

(** ** Focus initiation *)

Section InitFocusFacts.

Variable w : World.
Variable content : Content.
Hypothesis Hcontent : _content (self w) = Some content.

Local Abbreviation plan :=
  (getScrollData (ele_offsetTop w) (ele_offsetHeight w)
                 (getContentDimensions content)
                 (_keyboardHeight (self w)) (plt_height w)).
Local Abbreviation planned := (upd_self (set__scrollData (Some plan)) w).
Local Abbreviation duration := (getScrollAssistDuration (scrollAmount plan)).

(** A plan under 4 pixels: focus, re-open the gate, nothing else. *)
Lemma initFocus_trivial_plan :
  Qabs (scrollAmount plan) < 4 ->
  initFocus w = (setFocus ;; call (AppSetEnabled true None)) planned.
Proof.
  intro Hsmall. apply lt_true in Hsmall.
  unfold initFocus, bind, gets, modify, ret. cbv beta iota zeta.
  rewrite Hcontent. cbv beta iota zeta. unfold Math_abs. rewrite Hsmall.
  reflexivity.
Qed.

(** The calls made for such a plan: no [ContentScrollTo], no closing of
    the gate. *)
Lemma initFocus_trivial_plan_log :
  Qabs (scrollAmount plan) < 4 ->
  fst (initFocus w) = Returned tt
  /\ log (snd (initFocus w))
     = log w ++ (if isFocus (self w) then [NativeFocus] else [])
             ++ [AppSetEnabled true None].
Proof.
  intro Hsmall. rewrite (initFocus_trivial_plan Hsmall).
  unfold setFocus, isFocus, bind, gets, call, modify, ret. cbn.
  destruct (_isFocus (self w)); cbn; [rewrite <- app_assoc|]; split; reflexivity.
Qed.

(** A plan of 4 pixels or more without input cloning: the gate is closed
    for the computed duration and the scroll is started. *)
Lemma initFocus_scroll_plain :
  4 <= Qabs (scrollAmount plan) ->
  clone w = false ->
  initFocus w
  = (call (AppSetEnabled false (Some duration)) ;;
     setFocus ;;
     call (ContentScrollTo 0 (scrollTo plan) duration)) planned.
Proof.
  intros Hbig Hclone. apply lt_false in Hbig.
  unfold initFocus, bind, gets, call, modify, ret. cbv beta iota zeta.
  rewrite Hcontent. cbv beta iota zeta. unfold Math_abs. rewrite Hbig.
  cbn [clone add_log upd_self]. rewrite Hclone. reflexivity.
Qed.

(** The same plan with input cloning, on a field not yet relocated: the
    gate is closed, [beginFocus] records the relocation and throws on
    [this._native]; neither [setFocus] nor [scrollTo] is reached. *)
Lemma initFocus_scroll_cloning_throws :
  4 <= Qabs (scrollAmount plan) ->
  clone w = true ->
  relocated w = false ->
  initFocus w
  = (Threw TypeError,
     set_relocated true (add_log (AppSetEnabled false (Some duration)) planned)).
Proof.
  intros Hbig Hclone Hrel. apply lt_false in Hbig.
  unfold initFocus, bind, gets, call, modify, ret. cbv beta iota zeta.
  rewrite Hcontent. cbv beta iota zeta. unfold Math_abs. rewrite Hbig.
  cbn [clone add_log upd_self]. rewrite Hclone.
  unfold beginFocus, this_native, bind, gets, modify, throw, ret.
  cbn [relocated add_log upd_self]. rewrite Hrel. reflexivity.
Qed.

End InitFocusFacts.

(** Outside a scroll view, focus initiation is [setFocus]. *)
Lemma initFocus_no_content (w : World) :
  _content (self w) = None -> initFocus w = setFocus w.
Proof.
  intro H. unfold initFocus, bind, gets. cbv beta iota. rewrite H. reflexivity.
Qed.

(** C4.  The specification has every plan of 4 pixels or more close the
    gate for the computed duration and start the scroll animation.  With
    input cloning enabled the code closes the gate for 400ms and then
    throws in [beginFocus], before [setFocus] and [content.scrollTo]:
    the gate call is the only call made and no animation starts.  (On
    the same field without cloning both calls are made.) *)
Theorem initFocus_cloning_never_scrolls :
  4 <= Qabs (scrollAmount (getScrollData 500 40 dims0 260 640))
  /\ initFocus (world0 true)
     = (Threw TypeError,
        set_relocated true
          (add_log (AppSetEnabled false (Some 400))
             (upd_self (set__scrollData (Some (getScrollData 500 40 dims0 260 640)))
                (world0 true))))
  /\ log (snd (initFocus (world0 true))) = [AppSetEnabled false (Some 400)]
  /\ log (snd (initFocus (world0 false)))
     = [AppSetEnabled false (Some 400); ContentScrollTo 0 350 400].
Proof.
  split; [vm_compute; discriminate|].
  split; [reflexivity|].
  split; reflexivity.
Qed.

(** ** Focus relocation *)

(** The clone helpers touch the DOM only. *)
Lemma cloneInputComponent_relocated (w : World) :
  relocated (snd (cloneInputComponent w)) = relocated w.
Proof.
  unfold cloneInputComponent, bind, gets, modify, throw, ret. cbv beta iota.
  destruct (native_inHost (dom w)), (host_hasParent (dom w)); reflexivity.
Qed.

Lemma removeClone_relocated (w : World) :
  relocated (snd (removeClone w)) = relocated w.
Proof.
  unfold removeClone, bind, gets, modify, ret. cbv beta iota.
  destruct (native_inHost (dom w) && host_hasParent (dom w)); reflexivity.
Qed.

(** The guard: a call that asks for the state the field is already in
    returns at once, whatever the receiver. *)
Lemma beginFocus_same_flag
  (this : ThisBinding) (shouldFocus : bool) (inputRelativeY : number) (w : World) :
  relocated w = shouldFocus ->
  beginFocus this shouldFocus inputRelativeY w = (Returned tt, w).
Proof.
  intro H. unfold beginFocus, bind, gets. cbv beta iota.
  rewrite H, eqb_reflx. reflexivity.
Qed.

(** Whether it returns or throws, a call leaves the flag at the
    requested value: it is written before anything can fail. *)
Lemma beginFocus_sets_flag
  (this : ThisBinding) (shouldFocus : bool) (inputRelativeY : number) (w : World) :
  relocated (snd (beginFocus this shouldFocus inputRelativeY w)) = shouldFocus.
Proof.
  unfold beginFocus, bind, gets, modify, ret. cbv beta iota.
  destruct (Bool.eqb (relocated w) shouldFocus) eqn:E.
  - apply eqb_prop in E. exact E.
  - destruct this; cbn [this_native throw gets]; [reflexivity|].
    destruct shouldFocus.
    + pose proof (cloneInputComponent_relocated (set_relocated true w)) as Hc.
      destruct (cloneInputComponent (set_relocated true w)) as [[[]|e] w1];
        exact Hc.
    + pose proof (removeClone_relocated (set_relocated false w)) as Hr.
      exact Hr.
Qed.

(** Hence a second call with the same value does nothing, whatever the
    first one did. *)
Lemma beginFocus_second_call_returns
  (this this' : ThisBinding) (shouldFocus : bool) (y1 y2 : number) (w : World) :
  beginFocus this' shouldFocus y2 (snd (beginFocus this shouldFocus y1 w))
  = (Returned tt, snd (beginFocus this shouldFocus y1 w)).
Proof. apply beginFocus_same_flag, beginFocus_sets_flag. Qed.

(** With the component as receiver, which is how [hideFocus] reaches
    it, relocating an attached field twice leaves exactly one clone more
    and the native element moved away and transparent. *)
Lemma beginFocus_bound_receiver_one_clone (y1 y2 : number) (w : World) :
  relocated w = false ->
  native_inHost (dom w) = true ->
  host_hasParent (dom w) = true ->
  let w2 := snd (beginFocus ThisTextInput true y2
                   (snd (beginFocus ThisTextInput true y1 w))) in
  clonedInputEles (dom w2) = clonedInputEles (dom w) ++ [clonedComponentEle (dom w)]
  /\ native_transform (dom w2) = TransformTranslate3d y1
  /\ native_opacity (dom w2) = "0"%string.
Proof.
  intros Hrel Hin Hpar. rewrite beginFocus_second_call_returns.
  unfold beginFocus, this_native, cloneInputComponent, bind, gets, modify, ret.
  cbv beta iota. rewrite Hrel. cbn [Bool.eqb].
  unfold dom in *. cbn [self set_relocated]. rewrite Hin, Hpar.
  repeat split.
Qed.

(** C8.  Calling [beginFocus(true, y)] twice, the way [initFocus] calls
    it, on a field that is not relocated: the first call sets the flag
    and throws on [this._native] before it clones anything, the second
    returns at once.  The count of clones is zero, where the
    specification has exactly one; [beginFocus(false, _)] on the field
    as it was is a no-op. *)
Theorem beginFocus_twice_leaves_no_clone :
  let first := beginFocus ThisUndefined true (-496) (world0 true) in
  let second := beginFocus ThisUndefined true (-496) (snd first) in
  fst first = Threw TypeError
  /\ relocated (snd first) = true
  /\ second = (Returned tt, snd first)
  /\ List.length (clonedInputEles (dom (snd second))) = 0%nat
  /\ native_transform (dom (snd second)) = TransformNone
  /\ beginFocus ThisUndefined false 0 (world0 true) = (Returned tt, world0 true).
Proof. repeat split. Qed.

(** The completion callback of the scroll restores the field and
    re-opens the gate when nothing was relocated. *)
Lemma scrollToDone_not_relocated (w : World) :
  relocated w = false ->
  scrollToDone w = (Returned tt, add_log (AppSetEnabled true None) w).
Proof.
  intro Hrel. unfold scrollToDone, bind, gets, call, modify, ret.
  cbv beta iota. destruct (clone w); [|reflexivity].
  rewrite (beginFocus_same_flag ThisUndefined false 0 w Hrel). reflexivity.
Qed.

(** ** Clear on edit *)

Section ClearOnEditFacts.

Variable hasValue : string -> bool.

Local Abbreviation onKeydown' := (onKeydown hasValue).
Local Abbreviation blur := (_inputFocusChanged hasValue false).

(** Without the blurred-after-edit flag a keystroke leaves the value
    alone, and leaves the flag down. *)
Lemma onKeydown_flag_down (ev : option string) (t : TextInput) :
  truthy (_didBlurAfterEdit t) = false ->
  _value (onKeydown' ev t) = _value t
  /\ truthy (_didBlurAfterEdit (onKeydown' ev t)) = false.
Proof.
  intro H. unfold onKeydown, checkClearOnEdit.
  destruct ev as [v|]; [|split; [reflexivity | exact H]].
  destruct (truthy (_clearOnEdit t)); cbn [negb]; [|split; [reflexivity | exact H]].
  rewrite H. cbn [andb]. split; reflexivity.
Qed.

(** No step other than a blur raises the flag. *)
Lemma field_step_flag_down (s : FieldStep) (t : TextInput) :
  truthy (_didBlurAfterEdit t) = false ->
  truthy (_didBlurAfterEdit (field_step hasValue t s)) = false.
Proof.
  intro H. destruct s as [v|v|]; cbn [field_step].
  - apply onKeydown_flag_down, H.
  - exact H.
  - unfold _inputFocusChanged. cbn [negb]. rewrite andb_false_r. exact H.
Qed.

Lemma field_steps_flag_down (steps : list FieldStep) (t : TextInput) :
  truthy (_didBlurAfterEdit t) = false ->
  truthy (_didBlurAfterEdit (field_steps hasValue steps t)) = false.
Proof.
  unfold field_steps. revert t.
  induction steps as [|s steps IH]; intros t H; cbn [fold_left].
  - exact H.
  - apply IH, field_step_flag_down, H.
Qed.

(** Regaining focus changes nothing. *)
Lemma focus_gained_unchanged (t : TextInput) :
  _inputFocusChanged hasValue true t = t.
Proof.
  unfold _inputFocusChanged. cbn [negb]. rewrite andb_false_r. reflexivity.
Qed.

(** A blur with a value raises the flag and touches nothing else. *)
Lemma blur_with_value (t : TextInput) :
  _clearOnEdit t = Some true ->
  hasValue (_value t) = true ->
  blur t = set__didBlurAfterEdit (Some true) t.
Proof.
  intros Hc Hv. unfold _inputFocusChanged. rewrite Hc, Hv. reflexivity.
Qed.

(** The keystroke after a blur with a value, the field focused again,
    clears the value and lowers the flag. *)
Lemma keydown_after_blur_clears (v : string) (t : TextInput) :
  _clearOnEdit t = Some true ->
  hasValue (_value t) = true ->
  let refocused := _inputFocusChanged hasValue true (blur t) in
  _value refocused = _value t
  /\ _value (onKeydown' (Some v) refocused) = ""%string
  /\ _didBlurAfterEdit (onKeydown' (Some v) refocused) = Some false.
Proof.
  intros Hc Hv refocused. unfold refocused.
  rewrite focus_gained_unchanged, (blur_with_value t Hc Hv).
  unfold onKeydown, checkClearOnEdit. cbn. rewrite Hc, Hv. cbn.
  repeat split.
Qed.

End ClearOnEditFacts.

Lemma ngOnInit_returns (w : World) : fst (ngOnInit w) = Returned tt.
Proof.
  unfold ngOnInit, bind, gets, modify, call, ret. cbv beta iota.
  destruct (not_false _ && _); cbv beta iota;
    match goal with |- context [host_autofocus ?d] => destruct (host_autofocus d) end;
    cbv beta iota; try reflexivity;
    destruct (String.eqb _ "immediate"); try reflexivity;
    destruct (String.eqb _ "delay"); reflexivity.
Qed.

Lemma ngOnInit_clearOnEdit (w : World) :
  _clearOnEdit (self (snd (ngOnInit w)))
  = if not_false (get_clearOnEdit (self w)) && String.eqb (get_type (self w)) "password"
    then Some true else _clearOnEdit (self w).
Proof.
  unfold ngOnInit, bind, gets, modify, call, ret. cbv beta iota.
  destruct (not_false _ && _); cbv beta iota;
    match goal with |- context [host_autofocus ?d] => destruct (host_autofocus d) end;
    cbv beta iota; try reflexivity;
    destruct (String.eqb _ "immediate"); try reflexivity;
    destruct (String.eqb _ "delay"); reflexivity.
Qed.

(** C9.  At init a field of type password whose [clearOnEdit] is not
    [false] gets [clearOnEdit = true].  A field with [clearOnEdit] on
    that blurs with a value keeps the value until, focused again, it
    receives a keystroke: that keystroke clears the value and lowers the
    blurred-after-edit flag; after that, whatever is typed and however
    many keystrokes follow without a blur, no keystroke clears the value
    again. *)
Theorem clearOnEdit_default_and_single_clear
  (hasValue : string -> bool)
  (w : World) (t : TextInput) (v v' : string) (steps : list FieldStep) :
  (get_type (self w) = "password"%string ->
   get_clearOnEdit (self w) <> Some false ->
   fst (ngOnInit w) = Returned tt
   /\ get_clearOnEdit (self (snd (ngOnInit w))) = Some true)
  /\ (get_clearOnEdit t = Some true ->
      hasValue (_value t) = true ->
      let refocused :=
        _inputFocusChanged hasValue true (_inputFocusChanged hasValue false t) in
      let cleared := onKeydown hasValue (Some v) refocused in
      let later := field_steps hasValue steps cleared in
      _value refocused = _value t
      /\ _value cleared = ""%string
      /\ _didBlurAfterEdit cleared = Some false
      /\ _value (onKeydown hasValue (Some v') later) = _value later).
Proof.
  split.
  - intros Hty Hnf. split; [apply ngOnInit_returns|].
    unfold get_clearOnEdit at 1. rewrite ngOnInit_clearOnEdit, Hty.
    destruct (get_clearOnEdit (self w)) as [[|]|]; try reflexivity.
    contradiction Hnf. reflexivity.
  - intros Hc Hv refocused cleared later.
    destruct (keydown_after_blur_clears hasValue v t Hc Hv)
      as (Hkept & Hval & Hflag).
    split; [exact Hkept|]. split; [exact Hval|]. split; [exact Hflag|].
    apply onKeydown_flag_down. apply field_steps_flag_down.
    unfold cleared, refocused. rewrite Hflag. reflexivity.
Qed.

Lemma clearOnEdit_default_and_single_clear_witness :
  let field := self (snd (ngOnInit password_world)) in
  let cleared :=
    onKeydown hasValue_spec (Some "hunter2"%string)
      (_inputFocusChanged hasValue_spec true
         (_inputFocusChanged hasValue_spec false field)) in
  let later :=
    field_steps hasValue_spec
      [StepTyped "a"; StepKeydown "a"; StepTyped "ab"; StepFocus]%string cleared in
  get_clearOnEdit field = Some true
  /\ _value field = "hunter2"%string
  /\ _value cleared = ""%string
  /\ _value (onKeydown hasValue_spec (Some "ab"%string) later) = "ab"%string.
Proof.
  intros field cleared later.
  destruct (clearOnEdit_default_and_single_clear hasValue_spec password_world field
              "hunter2" "ab"
              [StepTyped "a"; StepKeydown "a"; StepTyped "ab"; StepFocus]%string)
    as [Hinit Hclear].
  destruct Hinit as [_ Hon]; [reflexivity | discriminate |].
  destruct (Hclear Hon eq_refl) as (_ & Hval & _ & Hlater).
  split; [exact Hon|]. split; [reflexivity|]. split; [exact Hval|].
  fold cleared in Hlater. fold later in Hlater.
  rewrite Hlater. reflexivity.
Defined.

(** * Further properties *)

(** ** Rounding *)

Lemma Math_round_bounds (v : number) :
  v - (1 # 2) < Math_round v /\ Math_round v <= v + (1 # 2).
Proof.
  unfold Math_round. split.
  - pose proof (Qlt_floor (v + (1 # 2))) as H.
    rewrite inject_Z_plus in H. change (inject_Z 1) with 1 in H. lra.
  - apply Qfloor_le.
Qed.

Lemma Math_round_small (v : number) :
  - (1 # 2) <= v -> v < 1 # 2 -> Math_round v = 0.
Proof.
  intros Hlo Hhi. unfold Math_round.
  pose proof (Qfloor_le (v + (1 # 2))) as H1.
  pose proof (Qlt_floor (v + (1 # 2))) as H2.
  assert (Ha : inject_Z (Qfloor (v + (1 # 2))) < inject_Z 1).
  { change (inject_Z 1) with 1. lra. }
  assert (Hb : inject_Z 0 < inject_Z (Qfloor (v + (1 # 2)) + 1)).
  { change (inject_Z 0) with 0. lra. }
  rewrite <- Zlt_Qlt in Ha, Hb.
  replace (Qfloor (v + (1 # 2))) with 0%Z by lia. reflexivity.
Qed.

Lemma Math_round_integer (v : number) : exists z : Z, Math_round v = inject_Z z.
Proof. unfold Math_round. eexists. reflexivity. Qed.

(** ** Where the plan leaves the field *)

Section SettlingFacts.

Variables (inputOffsetTop inputOffsetHeight : number).
Variable dims : ContentDimensions.
Variables (keyboardHeight plaformHeight : number).

Local Abbreviation top := (inputTop inputOffsetTop dims).
Local Abbreviation bottom := (inputBottom inputOffsetTop inputOffsetHeight dims).
Local Abbreviation sTop := (safeAreaTop dims).
Local Abbreviation sHeight := (safeAreaHeight dims keyboardHeight plaformHeight).
Local Abbreviation sBottom := (safeAreaBottom dims keyboardHeight plaformHeight).
Local Abbreviation plan :=
  (getScrollData inputOffsetTop inputOffsetHeight dims keyboardHeight plaformHeight).
Local Abbreviation unclamped :=
  (scrollAmount_unclamped inputOffsetTop inputOffsetHeight dims
                          keyboardHeight plaformHeight).
Local Abbreviation clamped :=
  (scrollAmount_clamped inputOffsetTop inputOffsetHeight dims
                        keyboardHeight plaformHeight).

(** The cap is the only way the amount differs from the rounded one. *)
Lemma clamped_is_unclamped :
  sTop <= top \/ unclamped <= inputOffsetHeight ->
  clamped = unclamped.
Proof.
  intro H. unfold scrollAmount_clamped, inputTopAboveSafeArea, gt.
  cmp_cases; simpl; try reflexivity. exfalso. destruct H; lra.
Qed.

(** Scrolling by [a] moves the field down the page by [a]; the safe
    area stays where it is. *)
Lemma inputTop_scrolledTo (a : number) :
  inputTop inputOffsetTop (scrolledTo (scrollTop dims - a) dims) == top + a.
Proof. unfold inputTop, scrolledTo. cbn. lra. Qed.

(** The amount computed at the position [scrollTop - a], for an [a] that
    is the rounded amount of the first plan. *)
Lemma unclamped_after_scroll :
  0 <= inputOffsetHeight ->
  scrollAmount_unclamped inputOffsetTop inputOffsetHeight
    (scrolledTo (scrollTop dims - unclamped) dims) keyboardHeight plaformHeight = 0.
Proof.
  intro Hh.
  pose proof (inputTop_scrolledTo unclamped) as Ht.
  unfold scrollAmount_unclamped at 1.
  unfold inputBottom, safeAreaBottom.
  change (safeAreaHeight (scrolledTo _ dims) keyboardHeight plaformHeight)
    with sHeight.
  change (safeAreaTop (scrolledTo (scrollTop dims - unclamped) dims)) with sTop.
  revert Ht. unfold scrollAmount_unclamped, gt.
  pose proof (Math_round_bounds (sBottom - bottom)) as [Ra Rb].
  pose proof (Math_round_bounds (sTop - top)) as [Rc Rd].
  unfold safeAreaBottom, inputBottom in Ra, Rb.
  destruct (lt inputOffsetHeight sHeight); intro Ht;
    apply Math_round_small; unfold safeAreaBottom, inputBottom in *; lra.
Qed.

(** An amount under the field's height was not capped. *)
Lemma below_cap_is_unclamped :
  sTop <= top \/ clamped < inputOffsetHeight ->
  clamped = unclamped.
Proof.
  intro H. destruct H as [H|H]; [apply clamped_is_unclamped; left; exact H|].
  revert H. unfold scrollAmount_clamped, inputTopAboveSafeArea, gt.
  cmp_cases; simpl; intro H; try reflexivity. lra.
Qed.

End SettlingFacts.

(** X1.  Once the scroll view has reached the plan's [scrollTo], the
    field needs no further scrolling: recomputing the plan there gives a
    scroll amount of 0.  This holds for every field that is not fully
    inside the safe area and whose amount was not capped (its top is not
    above the safe area, or the amount is under its height). *)
Theorem getScrollData_settles
  (inputOffsetTop inputOffsetHeight : number) (dims : ContentDimensions)
  (keyboardHeight plaformHeight : number) :
  let plan := getScrollData inputOffsetTop inputOffsetHeight dims
                            keyboardHeight plaformHeight in
  0 <= inputOffsetHeight ->
  ~ ((safeAreaTop dims <= inputTop inputOffsetTop dims
      /\ inputTop inputOffsetTop dims <= safeAreaBottom dims keyboardHeight plaformHeight)
     /\ (safeAreaTop dims <= inputBottom inputOffsetTop inputOffsetHeight dims
         /\ inputBottom inputOffsetTop inputOffsetHeight dims
            <= safeAreaBottom dims keyboardHeight plaformHeight)) ->
  safeAreaTop dims <= inputTop inputOffsetTop dims
    \/ scrollAmount plan < inputOffsetHeight ->
  scrollAmount (getScrollData inputOffsetTop inputOffsetHeight
                              (scrolledTo (scrollTo plan) dims)
                              keyboardHeight plaformHeight) == 0.
Proof.
  intros plan Hh Hout Hcap. subst plan.
  rewrite (plan_outside _ _ _ _ _ Hh Hout) in *. cbn [scrollTo scrollAmount] in *.
  rewrite (below_cap_is_unclamped _ _ _ _ _ Hcap).
  unfold getScrollData.
  destruct (inputTopWithinSafeArea _ _ _ _ && inputBottomWithinSafeArea _ _ _ _ _);
    [reflexivity|].
  destruct (_ || _ || _); [|reflexivity].
  cbn [scrollAmount]. unfold scrollAmount_clamped.
  rewrite (unclamped_after_scroll _ _ _ _ _ Hh).
  assert (Hgt : gt 0 inputOffsetHeight = false) by (apply lt_false; exact Hh).
  rewrite Hgt, andb_false_r. reflexivity.
Qed.

Lemma getScrollData_settles_witness :
  scrollTo (getScrollData 500 40 dims0 260 640) == 350
  /\ scrollAmount (getScrollData 500 40 (scrolledTo 350 dims0) 260 640) == 0.
Proof.
  split; [vm_compute; reflexivity|].
  apply (getScrollData_settles 500 40 dims0 260 640).
  - vm_compute. discriminate.
  - intros [[_ H] _]. vm_compute in H. apply H. reflexivity.
  - left. vm_compute. discriminate.
Defined.

(** X2.  The scroll amount brings the field where it is meant to be, to
    within the half pixel of rounding: the bottom of a field shorter
    than the safe area lands on the safe area's bottom, the top of any
    other field on the safe area's top.  As before the field is not
    fully inside the safe area and its amount was not capped. *)
Theorem scrollAmount_lands
  (inputOffsetTop inputOffsetHeight : number) (dims : ContentDimensions)
  (keyboardHeight plaformHeight : number) :
  let amount := scrollAmount (getScrollData inputOffsetTop inputOffsetHeight dims
                                            keyboardHeight plaformHeight) in
  0 <= inputOffsetHeight ->
  ~ ((safeAreaTop dims <= inputTop inputOffsetTop dims
      /\ inputTop inputOffsetTop dims <= safeAreaBottom dims keyboardHeight plaformHeight)
     /\ (safeAreaTop dims <= inputBottom inputOffsetTop inputOffsetHeight dims
         /\ inputBottom inputOffsetTop inputOffsetHeight dims
            <= safeAreaBottom dims keyboardHeight plaformHeight)) ->
  safeAreaTop dims <= inputTop inputOffsetTop dims
    \/ amount < inputOffsetHeight ->
  (inputOffsetHeight < safeAreaHeight dims keyboardHeight plaformHeight ->
   Qabs (inputBottom inputOffsetTop inputOffsetHeight dims + amount
         - safeAreaBottom dims keyboardHeight plaformHeight) <= 1 # 2)
  /\ (safeAreaHeight dims keyboardHeight plaformHeight <= inputOffsetHeight ->
      Qabs (inputTop inputOffsetTop dims + amount - safeAreaTop dims) <= 1 # 2).
Proof.
  intros amount Hh Hout Hcap. subst amount.
  rewrite (plan_outside _ _ _ _ _ Hh Hout) in *. cbn [scrollAmount] in *.
  rewrite (below_cap_is_unclamped _ _ _ _ _ Hcap).
  unfold scrollAmount_unclamped, gt.
  pose proof (Math_round_bounds
                (safeAreaBottom dims keyboardHeight plaformHeight
                 - inputBottom inputOffsetTop inputOffsetHeight dims)) as [Ra Rb].
  pose proof (Math_round_bounds
                (safeAreaTop dims - inputTop inputOffsetTop dims)) as [Rc Rd].
  split; intro Hs; cmp_cases; try lra;
    apply Qabs_Qle_condition; split; lra.
Qed.

Lemma scrollAmount_lands_witness :
  Qabs (inputBottom 500 40 dims0
        + scrollAmount (getScrollData 500 40 dims0 260 640)
        - safeAreaBottom dims0 260 640) <= 1 # 2.
Proof.
  apply (scrollAmount_lands 500 40 dims0 260 640).
  - vm_compute. discriminate.
  - intros [[_ H] _]. vm_compute in H. apply H. reflexivity.
  - left. vm_compute. discriminate.
  - vm_compute. reflexivity.
Defined.

(** X3.  The scroll amount of a field whose top is not above the safe
    area is a whole number of pixels. *)
Theorem scrollAmount_integer
  (inputOffsetTop inputOffsetHeight : number) (dims : ContentDimensions)
  (keyboardHeight plaformHeight : number) :
  0 <= inputOffsetHeight ->
  safeAreaTop dims <= inputTop inputOffsetTop dims ->
  exists z : Z,
    scrollAmount (getScrollData inputOffsetTop inputOffsetHeight dims
                                keyboardHeight plaformHeight) = inject_Z z.
Proof.
  intros Hh Ht. unfold getScrollData.
  destruct (inputTopWithinSafeArea _ _ _ _ && inputBottomWithinSafeArea _ _ _ _ _);
    [exists 0%Z; reflexivity|].
  destruct (_ || _ || _); [|exists 0%Z; reflexivity].
  cbn [scrollAmount].
  rewrite (clamped_is_unclamped _ _ _ _ _ (or_introl Ht)).
  unfold scrollAmount_unclamped.
  destruct (gt _ _); apply Math_round_integer.
Qed.

Lemma scrollAmount_integer_witness :
  exists z : Z, scrollAmount (getScrollData 191 0 dims0 260 641) = inject_Z z.
Proof.
  apply (scrollAmount_integer 191 0 dims0 260 641).
  - vm_compute. discriminate.
  - vm_compute. discriminate.
Defined.

(** The cap can leave a fraction: a field 10.5px high, above the safe
    area. *)
Example scrollAmount_capped_fraction :
  scrollAmount (getScrollData (-30) (21 # 2) dims0 260 640) == 21 # 2.
Proof. vm_compute. reflexivity. Qed.

(** ** Saturation of the duration *)

(** X4.  The duration depends on the distance's magnitude only; it is
    150ms for every distance up to 45px and 400ms from 120px on. *)
Theorem getScrollAssistDuration_saturates (d : number) :
  getScrollAssistDuration (- d) == getScrollAssistDuration d
  /\ (Qabs d <= 45 -> getScrollAssistDuration d == 150)
  /\ (120 <= Qabs d -> getScrollAssistDuration d == 400).
Proof.
  unfold getScrollAssistDuration, Math_abs, Math_min, Math_max, SCROLL_ASSIST_SPEED.
  split; [|split].
  - rewrite (Qabs_opp d). reflexivity.
  - intro H.
    assert (Hq : Qabs d / (3 # 10) <= 150).
    { apply Qle_shift_div_r; [reflexivity|]. lra. }
    rewrite (Q.max_l 150 _ Hq). apply Q.min_r. vm_compute. discriminate.
  - intro H.
    assert (Hq : 400 <= Qabs d / (3 # 10)).
    { apply Qle_shift_div_l; [reflexivity|]. lra. }
    apply Q.min_l. apply Qle_trans with (Qabs d / (3 # 10)); [exact Hq|].
    apply Q.le_max_r.
Qed.

Lemma getScrollAssistDuration_saturates_witness :
  getScrollAssistDuration 4 == 150 /\ getScrollAssistDuration (-350) == 400.
Proof.
  split.
  - apply (getScrollAssistDuration_saturates 4). vm_compute. discriminate.
  - apply (getScrollAssistDuration_saturates (-350)). vm_compute. discriminate.
Defined.

(** ** Focus initiation, once more *)

Lemma getScrollAssistDuration_bounds (d : number) :
  150 <= getScrollAssistDuration d /\ getScrollAssistDuration d <= 400.
Proof.
  unfold getScrollAssistDuration, Math_min, Math_max. split.
  - apply Q.min_glb; [vm_compute; discriminate | apply Q.le_max_l].
  - apply Q.le_min_l.
Qed.

(** What [setFocus] leaves behind. *)
Lemma setFocus_result (w : World) :
  setFocus w
  = (Returned tt,
     if isFocus (self w) then add_log NativeFocus w else w).
Proof.
  unfold setFocus, bind, gets, call, modify, ret. cbv beta iota.
  destruct (isFocus (self w)); reflexivity.
Qed.

Section InitFocusCases.

Variable w : World.
Variable content : Content.
Hypothesis Hcontent : _content (self w) = Some content.

Local Abbreviation plan :=
  (getScrollData (ele_offsetTop w) (ele_offsetHeight w)
                 (getContentDimensions content)
                 (_keyboardHeight (self w)) (plt_height w)).
Local Abbreviation planned := (upd_self (set__scrollData (Some plan)) w).
Local Abbreviation duration := (getScrollAssistDuration (scrollAmount plan)).

(** With input cloning on a field already marked relocated,
    [beginFocus(true, _)] returns at once and the scroll goes ahead. *)
Lemma initFocus_scroll_relocated :
  4 <= Qabs (scrollAmount plan) ->
  clone w = true ->
  relocated w = true ->
  initFocus w
  = (call (AppSetEnabled false (Some duration)) ;;
     setFocus ;;
     call (ContentScrollTo 0 (scrollTo plan) duration)) planned.
Proof.
  intros Hbig Hclone Hrel. apply lt_false in Hbig.
  unfold initFocus, bind, gets, call, modify, ret. cbv beta iota zeta.
  rewrite Hcontent. cbv beta iota zeta. unfold Math_abs. rewrite Hbig.
  cbn [clone add_log upd_self]. rewrite Hclone.
  unfold beginFocus, this_native, bind, gets, modify, throw, ret.
  cbn [relocated add_log upd_self]. rewrite Hrel. reflexivity.
Qed.

(** The log of a scroll that goes ahead. *)
Lemma scroll_log :
  log (snd ((call (AppSetEnabled false (Some duration)) ;;
             setFocus ;;
             call (ContentScrollTo 0 (scrollTo plan) duration)) planned))
  = log w ++ [AppSetEnabled false (Some duration)]
          ++ (if isFocus (self w) then [NativeFocus] else [])
          ++ [ContentScrollTo 0 (scrollTo plan) duration].
Proof.
  unfold setFocus, isFocus, bind, gets, call, modify, ret. cbn.
  destruct (_isFocus (self w)); cbn; rewrite <- !app_assoc; reflexivity.
Qed.

End InitFocusCases.

(** Every run of [initFocus] adds to the log one of four things. *)
Lemma initFocus_log (w : World) :
  let focus := if isFocus (self w) then [NativeFocus] else [] in
  exists new,
    log (snd (initFocus w)) = log w ++ new
    /\ (new = focus
        \/ new = focus ++ [AppSetEnabled true None]
        \/ (exists d, new = [AppSetEnabled false (Some (getScrollAssistDuration d))])
        \/ (exists d y,
              new = [AppSetEnabled false (Some (getScrollAssistDuration d))]
                    ++ focus
                    ++ [ContentScrollTo 0 y (getScrollAssistDuration d)])).
Proof.
  intro focus.
  destruct (_content (self w)) as [content|] eqn:Hc.
  - set (amount := scrollAmount
                     (getScrollData (ele_offsetTop w) (ele_offsetHeight w)
                        (getContentDimensions content)
                        (_keyboardHeight (self w)) (plt_height w))).
    destruct (Qlt_le_dec (Qabs amount) 4) as [Hs|Hb].
    + destruct (initFocus_trivial_plan_log w content Hc Hs) as [_ Hl].
      eexists. split; [exact Hl|]. right. left. reflexivity.
    + destruct (clone w) eqn:Hclone; [destruct (relocated w) eqn:Hrel|].
      * rewrite (initFocus_scroll_relocated w content Hc Hb Hclone Hrel).
        rewrite scroll_log. eexists. split; [reflexivity|].
        right. right. right. exists amount. eexists. reflexivity.
      * rewrite (initFocus_scroll_cloning_throws w content Hc Hb Hclone Hrel).
        cbn. eexists. split; [reflexivity|].
        right. right. left. exists amount. reflexivity.
      * rewrite (initFocus_scroll_plain w content Hc Hb Hclone).
        rewrite scroll_log. eexists. split; [reflexivity|].
        right. right. right. exists amount. eexists. reflexivity.
  - rewrite (initFocus_no_content w Hc), setFocus_result.
    exists focus. split; [|left; reflexivity].
    subst focus. destruct (isFocus (self w)); cbn; [reflexivity|].
    rewrite app_nil_r. reflexivity.
Qed.

(** X5.  Focus initiation never starts a scroll without having closed
    the gate first, for the same duration, which lies between 150 and
    400; and it only ever scrolls vertically. *)
Theorem initFocus_scrolls_behind_gate
  (w : World) (new : list Effect) (x0 y0 d : number) :
  log (snd (initFocus w)) = log w ++ new ->
  In (ContentScrollTo x0 y0 d) new ->
  x0 = 0
  /\ (exists rest, new = AppSetEnabled false (Some d) :: rest)
  /\ 150 <= d /\ d <= 400.
Proof.
  intros Hlog Hin.
  destruct (initFocus_log w) as (new' & Hlog' & Hcases).
  rewrite Hlog in Hlog'. apply app_inv_head in Hlog'. subst new'.
  destruct Hcases as [H|[H|[[d' H]|(d' & y' & H)]]]; subst new.
  - destruct (isFocus (self w)); cbn in Hin; intuition discriminate.
  - destruct (isFocus (self w)); cbn in Hin; intuition discriminate.
  - cbn in Hin. intuition discriminate.
  - assert (Heq : ContentScrollTo 0 y' (getScrollAssistDuration d')
                  = ContentScrollTo x0 y0 d).
    { destruct (isFocus (self w)); cbn in Hin; intuition discriminate. }
    injection Heq as Hx Hy Hd. subst x0 y0 d.
    split; [reflexivity|]. split; [eexists; reflexivity|].
    apply getScrollAssistDuration_bounds.
Qed.

Lemma initFocus_scrolls_behind_gate_witness :
  0 = 0
  /\ (exists rest,
        [AppSetEnabled false (Some 400); ContentScrollTo 0 350 400]
        = AppSetEnabled false (Some 400) :: rest)
  /\ 150 <= 400 /\ 400 <= 400.
Proof.
  apply (initFocus_scrolls_behind_gate (world0 false)
           [AppSetEnabled false (Some 400); ContentScrollTo 0 350 400] 0 350 400).
  - reflexivity.
  - right. left. reflexivity.
Defined.

(** Without input cloning, focus initiation returns and leaves the
    closure variables and the DOM alone. *)
Lemma initFocus_plain_frame (w : World) :
  clone w = false ->
  fst (initFocus w) = Returned tt
  /\ coord (snd (initFocus w)) = coord w
  /\ relocated (snd (initFocus w)) = relocated w
  /\ dom (snd (initFocus w)) = dom w.
Proof.
  intro Hclone.
  destruct (_content (self w)) as [content|] eqn:Hc.
  - destruct (Qlt_le_dec
                (Qabs (scrollAmount
                         (getScrollData (ele_offsetTop w) (ele_offsetHeight w)
                            (getContentDimensions content)
                            (_keyboardHeight (self w)) (plt_height w)))) 4)
      as [Hs|Hb].
    + rewrite (initFocus_trivial_plan w content Hc Hs).
      unfold setFocus, isFocus, bind, gets, call, modify, ret. cbn.
      destruct (_isFocus (self w)); repeat split.
    + rewrite (initFocus_scroll_plain w content Hc Hb Hclone).
      unfold setFocus, isFocus, bind, gets, call, modify, ret. cbn.
      destruct (_isFocus (self w)); repeat split.
  - rewrite (initFocus_no_content w Hc), setFocus_result.
    destruct (isFocus (self w)); repeat split.
Qed.

(** X6.  Without input cloning, a pointer-up that meets the gate closed
    or finds a pointer-down coordinate recorded returns, leaves the DOM
    and the relocation flag untouched, and forgets the coordinate
    whenever the gate is open (it keeps it when the gate is closed).
    With the gate open and no coordinate recorded it throws on the
    assertion and changes nothing. *)
Theorem pointerUp_without_cloning
  (hasPointerMoved : number -> option PointerCoordinates -> PointerCoordinates -> bool)
  (ev : PointerEvent) (w : World) :
  clone w = false ->
  let w' := snd (pointerUp hasPointerMoved ev w) in
  (app_isEnabled w = false \/ coord w <> None ->
   fst (pointerUp hasPointerMoved ev w) = Returned tt
   /\ coord w' = (if app_isEnabled w then None else coord w)
   /\ relocated w' = relocated w
   /\ dom w' = dom w)
  /\ (app_isEnabled w = true -> coord w = None ->
      pointerUp hasPointerMoved ev w
      = (Threw (AssertionFailed "coord must be valid"), w)).
Proof.
  intros Hclone w'. subst w'. split; [|apply pointerUp_no_coord].
  intro Hok.
  unfold pointerUp, assert, bind, gets, call, modify, ret. cbv beta iota zeta.
  destruct (app_isEnabled w); cbn [negb]; cbv beta iota; [|repeat split].
  destruct (coord w) as [c|] eqn:Hc;
    [|destruct Hok as [H|H]; [discriminate | contradiction H; reflexivity]].
  cbn [is_recorded]. cbv beta iota.
  destruct (negb (hasPointerMoved 8 (Some c) (pointerCoord ev))
            && negb (isFocus (self w))); cbv beta iota; [|repeat split].
  destruct (initFocus_plain_frame
              (add_log EvStopPropagation (add_log EvPreventDefault w)) Hclone)
    as (Hr & _ & Hrel & Hdom).
  destruct (initFocus _) as [o w1]. cbn [fst snd] in *. subst o.
  cbn. repeat split; assumption.
Qed.

Lemma pointerUp_without_cloning_witness :
  (fst (pointerUp hasPointerMoved_spec tapUp (world_down false)) = Returned tt
   /\ coord (snd (pointerUp hasPointerMoved_spec tapUp (world_down false))) = None)
  /\ pointerUp hasPointerMoved_spec tapUp (world0 false)
     = (Threw (AssertionFailed "coord must be valid"), world0 false).
Proof.
  split.
  - destruct (pointerUp_without_cloning hasPointerMoved_spec tapUp (world_down false)
                                        eq_refl) as [Hret _].
    destruct Hret as (Hr & Hc & _); [right; discriminate|].
    split; [exact Hr | exact Hc].
  - apply (pointerUp_without_cloning hasPointerMoved_spec tapUp (world0 false));
      reflexivity.
Defined.

(** X7.  With input cloning, on a field already marked relocated (as a
    first tap leaves it), focus initiation closes the gate and starts
    the scroll; the scroll's completion callback then throws in
    [beginFocus(false, 0)] before it re-opens the gate: the flag is set
    back and [setEnabled(true)] is never called. *)
Theorem scrollToDone_after_relocation_throws (w : World) (content : Content) :
  _content (self w) = Some content ->
  4 <= Qabs (scrollAmount
               (getScrollData (ele_offsetTop w) (ele_offsetHeight w)
                  (getContentDimensions content)
                  (_keyboardHeight (self w)) (plt_height w))) ->
  clone w = true ->
  relocated w = true ->
  let w' := snd (initFocus w) in
  fst (initFocus w) = Returned tt
  /\ (exists before y d, log w' = before ++ [ContentScrollTo 0 y d])
  /\ scrollToDone w' = (Threw TypeError, set_relocated false w').
Proof.
  intros Hc Hb Hclone Hrel w'. subst w'.
  rewrite (initFocus_scroll_relocated w content Hc Hb Hclone Hrel).
  unfold setFocus, isFocus, bind, gets, call, modify, ret. cbn.
  destruct (_isFocus (self w)); cbn.
  - split; [reflexivity|]. split.
    + eexists. eexists. eexists. reflexivity.
    + unfold scrollToDone, beginFocus, this_native, bind, gets, throw, modify, ret.
      cbn [clone add_log upd_self]. rewrite Hclone. cbv beta iota.
      cbn [relocated add_log upd_self]. rewrite Hrel. reflexivity.
  - split; [reflexivity|]. split.
    + eexists. eexists. eexists. reflexivity.
    + unfold scrollToDone, beginFocus, this_native, bind, gets, throw, modify, ret.
      cbn [clone add_log upd_self]. rewrite Hclone. cbv beta iota.
      cbn [relocated add_log upd_self]. rewrite Hrel. reflexivity.
Qed.

Lemma scrollToDone_after_relocation_throws_witness :
  let w1 := snd (initFocus (world0 true)) in
  let w2 := snd (initFocus w1) in
  log w2 = [AppSetEnabled false (Some 400);
            AppSetEnabled false (Some 400); ContentScrollTo 0 350 400]
  /\ scrollToDone w2 = (Threw TypeError, set_relocated false w2).
Proof.
  intros w1 w2. split; [reflexivity|].
  apply (scrollToDone_after_relocation_throws w1 {| getContentDimensions := dims0 |}).
  - reflexivity.
  - vm_compute. discriminate.
  - reflexivity.
  - reflexivity.
Defined.

(** ** The clone helpers *)

Lemma hideFocus_true_attached (w : World) :
  native_inHost (dom w) = true ->
  host_hasParent (dom w) = true ->
  hideFocus true w
  = (Returned tt,
     upd_dom (fun d =>
       set_native_transform TransformScale0
         (set_host_pointerEvents "none"
            (set_clonedInputEles (clonedInputEles d ++ [clonedComponentEle d]) d))) w).
Proof.
  intros Hin Hpar.
  unfold hideFocus, cloneInputComponent, bind, gets, modify, ret. cbv beta iota.
  rewrite Hin, Hpar. reflexivity.
Qed.

(** X8.  Hiding and then showing the focus of a field in its pristine
    state (attached, no clone, no inline style) is a round trip: the
    clone is gone and every style is back to what it was. *)
Theorem hideFocus_round_trip (w : World) :
  native_inHost (dom w) = true ->
  host_hasParent (dom w) = true ->
  clonedInputEles (dom w) = [] ->
  host_pointerEvents (dom w) = ""%string ->
  native_transform (dom w) = TransformNone ->
  native_opacity (dom w) = ""%string ->
  (hideFocus true ;; hideFocus false) w = (Returned tt, w).
Proof.
  destruct w as [t eT eH pH en co re cl lg].
  destruct t as [afa coe dbae kh ty sd va isf ct d].
  destruct d as [au oT oL oW oH pe hp ih nv ntr nop cls].
  unfold dom. cbn. intros -> -> -> -> -> ->. reflexivity.
Qed.

Lemma hideFocus_round_trip_witness :
  (hideFocus true ;; hideFocus false) (world0 false) = (Returned tt, world0 false)
  /\ List.length (clonedInputEles (dom (snd (hideFocus true (world0 false))))) = 1%nat.
Proof.
  split; [|reflexivity].
  apply (hideFocus_round_trip (world0 false)); reflexivity.
Defined.

(** X9.  Each [hideFocus(true)] on an attached field adds one clone,
    so [n] of them in a row (one per scroll start) leave [n] more; a
    single [hideFocus(false)] then removes them all. *)
Theorem hideFocus_clones_pile_up (n : nat) (w : World) :
  native_inHost (dom w) = true ->
  host_hasParent (dom w) = true ->
  let w' := snd (times n (hideFocus true) w) in
  fst (times n (hideFocus true) w) = Returned tt
  /\ List.length (clonedInputEles (dom w'))
     = (List.length (clonedInputEles (dom w)) + n)%nat
  /\ clonedInputEles (dom (snd (hideFocus false w'))) = [].
Proof.
  intros Hin Hpar w'. subst w'.
  assert (H : fst (times n (hideFocus true) w) = Returned tt
              /\ List.length (clonedInputEles (dom (snd (times n (hideFocus true) w))))
                 = (List.length (clonedInputEles (dom w)) + n)%nat
              /\ native_inHost (dom (snd (times n (hideFocus true) w))) = true
              /\ host_hasParent (dom (snd (times n (hideFocus true) w))) = true).
  { revert w Hin Hpar. induction n as [|n IH]; intros w Hin Hpar.
    - cbn. rewrite Nat.add_0_r. repeat split; assumption.
    - pose proof (hideFocus_true_attached w Hin Hpar) as Hone.
      set (w1 := upd_dom _ w) in Hone.
      assert (Hstep : times (S n) (hideFocus true) w = times n (hideFocus true) w1).
      { cbn [times]. unfold bind. rewrite Hone. reflexivity. }
      rewrite Hstep.
      assert (Hin1 : native_inHost (dom w1) = true) by exact Hin.
      assert (Hpar1 : host_hasParent (dom w1) = true) by exact Hpar.
      destruct (IH w1 Hin1 Hpar1) as (Hr & Hlen & Hin' & Hpar').
      repeat split; try assumption.
      rewrite Hlen. subst w1. unfold dom. cbn.
      rewrite length_app. cbn. lia. }
  destruct H as (Hr & Hlen & Hin' & Hpar').
  split; [exact Hr|]. split; [exact Hlen|].
  set (w' := snd (times n (hideFocus true) w)) in *.
  unfold hideFocus, removeClone, bind, gets, modify, ret. cbv beta iota.
  rewrite Hin', Hpar'. reflexivity.
Qed.

Lemma hideFocus_clones_pile_up_witness :
  List.length (clonedInputEles
                 (dom (snd (times 3 (hideFocus true) (world0 false))))) = 3%nat.
Proof.
  apply (hideFocus_clones_pile_up 3 (world0 false)); reflexivity.
Defined.

(** X10.  On a host that has no parent, cloning throws and changes
    nothing, not even the native element's transform; removing clones
    still returns, resets the native element's transform and opacity and
    leaves the host's pointer events and the clones as they were. *)
Theorem clone_helpers_detached (w : World) :
  native_inHost (dom w) = true ->
  host_hasParent (dom w) = false ->
  cloneInputComponent w = (Threw TypeError, w)
  /\ hideFocus true w = (Threw TypeError, w)
  /\ fst (removeClone w) = Returned tt
  /\ native_transform (dom (snd (removeClone w))) = TransformNone
  /\ native_opacity (dom (snd (removeClone w))) = ""%string
  /\ host_pointerEvents (dom (snd (removeClone w))) = host_pointerEvents (dom w)
  /\ clonedInputEles (dom (snd (removeClone w))) = clonedInputEles (dom w).
Proof.
  intros Hin Hpar.
  unfold hideFocus, cloneInputComponent, removeClone, bind, gets, modify, throw, ret.
  cbv beta iota. rewrite Hin, Hpar. repeat split.
Qed.

Lemma clone_helpers_detached_witness :
  let detached :=
    upd_dom (fun d =>
      {| host_autofocus := host_autofocus d; host_offsetTop := host_offsetTop d;
         host_offsetLeft := host_offsetLeft d; host_offsetWidth := host_offsetWidth d;
         host_offsetHeight := host_offsetHeight d;
         host_pointerEvents := host_pointerEvents d;
         host_hasParent := false; native_inHost := native_inHost d;
         native_value := native_value d; native_transform := native_transform d;
         native_opacity := native_opacity d;
         clonedInputEles := clonedInputEles d |}) (world0 false) in
  cloneInputComponent detached = (Threw TypeError, detached).
Proof.
  intro detached.
  apply (clone_helpers_detached detached); reflexivity.
Defined.

(** X11.  Removing clones twice is removing them once: the second call
    changes nothing. *)
Theorem removeClone_idempotent (w : World) :
  removeClone (snd (removeClone w)) = (Returned tt, snd (removeClone w)).
Proof.
  unfold removeClone, bind, gets, modify, ret. cbv beta iota.
  destruct (native_inHost (dom w) && host_hasParent (dom w)) eqn:E.
  - cbn. unfold dom in E. rewrite E. reflexivity.
  - cbn. unfold dom in E. rewrite E. reflexivity.
Qed.

(** ** Clear on edit, away from the main path *)

Section ClearOnEditEdges.

Variable hasValue : string -> bool.

(** X12.  A field whose [clearOnEdit] is off ([false], or never set on
    a field that is not a password) is left exactly as it is by any run
    of keystrokes, blurs and focuses: nothing is cleared and no flag is
    raised. *)
Theorem clearOnEdit_off_is_inert (events : list FieldEvent) (t : TextInput) :
  truthy (_clearOnEdit t) = false ->
  field_events hasValue events t = t.
Proof.
  intro Hoff. unfold field_events.
  induction events as [|e events IH]; cbn [fold_left]; [reflexivity|].
  assert (He : field_event hasValue t e = t).
  { destruct e as [v| |]; cbn [field_event];
      unfold onKeydown, _inputFocusChanged; rewrite Hoff; reflexivity. }
  rewrite He. exact IH.
Qed.

(** X13.  A blur while the field holds no value does not arm the
    clearing: whatever is typed afterwards, no keystroke clears it. *)
Theorem blur_without_value_does_not_arm
  (t : TextInput) (steps : list FieldStep) (v : string) :
  truthy (_didBlurAfterEdit t) = false ->
  hasValue (_value t) = false ->
  let later := field_steps hasValue steps (_inputFocusChanged hasValue false t) in
  _value (onKeydown hasValue (Some v) later) = _value later.
Proof.
  intros Hflag Hempty later. subst later.
  assert (Hblur : _inputFocusChanged hasValue false t = t).
  { unfold _inputFocusChanged. rewrite Hempty, andb_false_r. reflexivity. }
  rewrite Hblur.
  apply onKeydown_flag_down, field_steps_flag_down, Hflag.
Qed.

(** X14.  The keystroke after a blur lowers the flag whether or not it
    clears.  If the value was emptied between the blur and the
    keystroke, the keystroke clears nothing, and neither does any later
    one: what is typed from then on stays. *)
Theorem keydown_consumes_flag
  (t : TextInput) (emptied k k' : string) (steps : list FieldStep) :
  _clearOnEdit t = Some true ->
  hasValue (_value t) = true ->
  hasValue emptied = false ->
  let struck :=
    onKeydown hasValue (Some k)
      (set__value emptied (_inputFocusChanged hasValue false t)) in
  let later := field_steps hasValue steps struck in
  _value struck = emptied
  /\ _didBlurAfterEdit struck = Some false
  /\ _value (onKeydown hasValue (Some k') later) = _value later.
Proof.
  intros Hc Hv He struck later.
  assert (Hafter : _value struck = emptied /\ _didBlurAfterEdit struck = Some false).
  { subst struck. rewrite (blur_with_value hasValue t Hc Hv).
    unfold onKeydown, checkClearOnEdit. cbn. rewrite Hc. cbn. rewrite He.
    cbn. split; reflexivity. }
  destruct Hafter as [H1 H2]. split; [exact H1|]. split; [exact H2|].
  subst later. apply onKeydown_flag_down, field_steps_flag_down.
  rewrite H2. reflexivity.
Qed.

End ClearOnEditEdges.

Lemma clearOnEdit_off_is_inert_witness :
  field_events hasValue_spec
    [EventBlur; EventFocus; EventKeydown "x"; EventBlur]%string
    (set__value "kept" input0)
  = set__value "kept" input0.
Proof.
  apply (clearOnEdit_off_is_inert hasValue_spec). reflexivity.
Defined.

Lemma blur_without_value_does_not_arm_witness :
  _value (onKeydown hasValue_spec (Some "ab"%string)
            (field_steps hasValue_spec [StepFocus; StepTyped "ab"]%string
               (_inputFocusChanged hasValue_spec false
                  (set__clearOnEdit (Some true) input0))))
  = "ab"%string.
Proof.
  rewrite (blur_without_value_does_not_arm hasValue_spec
             (set__clearOnEdit (Some true) input0)
             [StepFocus; StepTyped "ab"]%string "ab"); reflexivity.
Defined.

Lemma keydown_consumes_flag_witness :
  let struck :=
    onKeydown hasValue_spec (Some ""%string)
      (set__value "" (_inputFocusChanged hasValue_spec false
                        (set__clearOnEdit (Some true) password0))) in
  _value struck = ""%string
  /\ _value (onKeydown hasValue_spec (Some "n"%string)
               (field_steps hasValue_spec [StepTyped "n"]%string struck))
     = "n"%string.
Proof.
  intro struck.
  destruct (keydown_consumes_flag hasValue_spec
              (set__clearOnEdit (Some true) password0) "" "" "n"
              [StepTyped "n"]%string eq_refl eq_refl eq_refl)
    as (H1 & _ & H3).
  split; [exact H1|].
  fold struck in H3. rewrite H3. reflexivity.
Defined.

(** ** Initialisation *)

(** X15.  [ngOnInit] leaves [clearOnEdit] as it finds it on every field
    that is not of type password, and on a password field whose
    [clearOnEdit] was set to [false]. *)
Theorem ngOnInit_keeps_clearOnEdit (w : World) :
  get_type (self w) <> "password"%string \/ get_clearOnEdit (self w) = Some false ->
  get_clearOnEdit (self (snd (ngOnInit w))) = get_clearOnEdit (self w).
Proof.
  intro H. unfold get_clearOnEdit at 1. rewrite ngOnInit_clearOnEdit.
  destruct H as [H|H].
  - destruct (String.eqb_spec (get_type (self w)) "password") as [E|E];
      [contradiction|]. rewrite andb_false_r. reflexivity.
  - rewrite H. cbn [not_false andb]. exact H.
Qed.

Lemma ngOnInit_keeps_clearOnEdit_witness :
  get_clearOnEdit (self (snd (ngOnInit (world0 false)))) = None
  /\ get_clearOnEdit
       (self (snd (ngOnInit (upd_self (set_clearOnEdit false) password_world))))
     = Some false.
Proof.
  split.
  - rewrite (ngOnInit_keeps_clearOnEdit (world0 false)); [reflexivity|].
    left. discriminate.
  - rewrite (ngOnInit_keeps_clearOnEdit
               (upd_self (set_clearOnEdit false) password_world)); [reflexivity|].
    right. reflexivity.
Defined.

(** X16.  [ngOnInit] always leaves the host without its [autofocus]
    attribute.  It touches the native element only when the attribute
    was there: it focuses it at once under ['immediate'], schedules the
    focus 650ms later under ['delay'], and does neither under any other
    setting. *)
Theorem ngOnInit_autofocus (w : World) :
  host_autofocus (dom (snd (ngOnInit w))) = false
  /\ log (snd (ngOnInit w))
     = log w ++
       (if host_autofocus (dom w) then
          if String.eqb (_autoFocusAssist (self w)) "immediate" then [NativeFocus]
          else if String.eqb (_autoFocusAssist (self w)) "delay"
               then [PlatformTimeout 650]
               else []
        else []).
Proof.
  unfold ngOnInit, bind, gets, modify, call, ret. cbv beta iota.
  destruct (not_false _ && _); cbv beta iota; unfold dom; cbn;
    destruct (host_autofocus (_native (self w))) eqn:Ha; cbn;
    try (rewrite app_nil_r; split; [exact Ha | reflexivity]);
    destruct (String.eqb _ "immediate"); cbn; try (split; reflexivity);
    destruct (String.eqb _ "delay"); cbn;
    try (rewrite app_nil_r); split; reflexivity.
Qed.

(** ** The [type] input *)

(** X17.  Whatever is assigned to [type], a field that is not a
    textarea ends with type ["text"] or one of the allowed types: the
    lower-cased string when that is an allowed type, ["text"] for any
    other string and for any value that is not a string.  A textarea
    ignores the assignment. *)
Theorem set_type_allowed
  (toLowerCase : string -> string) (val : JsValue) (t : TextInput) :
  set_type toLowerCase true val t = t
  /\ In (get_type (set_type toLowerCase false val t))
        ("text"%string :: ALLOWED_TYPES)
  /\ get_type (set_type toLowerCase false val t)
     = match val with
       | JsString s =>
           if in_dec string_dec (toLowerCase s) ALLOWED_TYPES
           then toLowerCase s else "text"%string
       | JsNotString => "text"%string
       end.
Proof.
  split; [reflexivity|].
  assert (Hchar : get_type (set_type toLowerCase false val t)
     = match val with
       | JsString s =>
           if in_dec string_dec (toLowerCase s) ALLOWED_TYPES
           then toLowerCase s else "text"%string
       | JsNotString => "text"%string
       end).
  { unfold set_type. destruct val as [s|]; [|reflexivity].
    cbv zeta.
    destruct (existsb (String.eqb (toLowerCase s)) ALLOWED_TYPES) eqn:E.
    - apply existsb_exists in E. destruct E as (a & Ha & Heq).
      apply String.eqb_eq in Heq. subst a.
      destruct (in_dec string_dec (toLowerCase s) ALLOWED_TYPES);
        [reflexivity | contradiction].
    - destruct (in_dec string_dec (toLowerCase s) ALLOWED_TYPES) as [i|];
        [|reflexivity].
      assert (Ht : existsb (String.eqb (toLowerCase s)) ALLOWED_TYPES = true).
      { apply existsb_exists. exists (toLowerCase s). split; [exact i|].
        apply String.eqb_refl. }
      congruence. }
  split; [|exact Hchar].
  rewrite Hchar. destruct val as [s|]; [|left; reflexivity].
  destruct (in_dec string_dec (toLowerCase s) ALLOWED_TYPES) as [i|];
    [right; exact i | left; reflexivity].
Qed.

(** ** The form registry *)

Module FormFacts.

Import FormUtil.

(** [indexOf] finds the first occurrence, or answers -1 when there is
    none. *)
Lemma indexOf_spec (l : list IonicFormInput) (x : IonicFormInput) :
  (indexOf l x = (-1)%Z /\ ~ In x l)
  \/ (exists pre post,
        l = pre ++ x :: post /\ ~ In x pre
        /\ indexOf l x = Z.of_nat (List.length pre)).
Proof.
  induction l as [|y l IH]; cbn [indexOf].
  - left. split; [reflexivity | intros []].
  - destruct (Nat.eqb_spec y x) as [E|E].
    + subst y. right. exists [], l. repeat split. intros [].
    + destruct IH as [[Hi Hn]|(pre & post & Hl & Hn & Hi)]; rewrite Hi.
      * left. split; [reflexivity|]. intros [H|H]; [congruence | contradiction].
      * right. exists (y :: pre), post. subst l. split; [reflexivity|].
        split; [intros [H|H]; [congruence | contradiction]|].
        destruct (Z.ltb_spec (Z.of_nat (List.length pre)) 0); [lia|].
        cbn [List.length]. lia.
Qed.

Lemma indexOf_first (pre post : list IonicFormInput) (x : IonicFormInput) :
  ~ In x pre -> indexOf (pre ++ x :: post) x = Z.of_nat (List.length pre).
Proof.
  intro Hn. induction pre as [|y pre IH]; cbn [app indexOf].
  - rewrite Nat.eqb_refl. reflexivity.
  - destruct (Nat.eqb_spec y x) as [E|E]; [exfalso; apply Hn; left; exact E|].
    rewrite IH by (intro H; apply Hn; right; exact H).
    destruct (Z.ltb_spec (Z.of_nat (List.length pre)) 0); [lia|].
    cbn [List.length]. lia.
Qed.

Lemma is_focused_false (f : Form) (i : IonicFormInput) :
  is_focused f i = false <-> _focused f <> Some i.
Proof.
  unfold is_focused. destruct (_focused f) as [foc|].
  - rewrite Nat.eqb_neq. split; intros H E; apply H; congruence.
  - split; [discriminate | reflexivity].
Qed.

Lemma first_occurrence_unique
      (x : IonicFormInput) (pre p r q : list IonicFormInput) :
  ~ In x pre -> ~ In x p -> pre ++ x :: r = p ++ x :: q -> pre = p /\ r = q.
Proof.
  revert p. induction pre as [|b pre IH]; intros p Hpre Hp E.
  - destruct p as [|c p]; cbn in E.
    + injection E as E. split; [reflexivity | exact E].
    + injection E as Ec _. exfalso. apply Hp. left. symmetry. exact Ec.
  - destruct p as [|c p]; cbn in E.
    + injection E as Eb _. exfalso. apply Hpre. left. exact Eb.
    + injection E as Eb E. subst c.
      destruct (IH p) as [H1 H2].
      * intro H. apply Hpre. right. exact H.
      * intro H. apply Hp. right. exact H.
      * exact E.
      * subst p. split; [reflexivity | exact H2].
Qed.

(** The step back: the input registered right before the focused one. *)
Lemma tabFocus_back (l : list IonicFormInput) (focused : option IonicFormInput)
      (i : IonicFormInput) :
  (if (0 <? indexOf_ref l focused)%Z
   then nth_error l (Z.to_nat (indexOf_ref l focused - 1))
   else None) = Some i ->
  exists foc pre post,
    focused = Some foc /\ l = pre ++ i :: foc :: post /\ ~ In foc (pre ++ [i]).
Proof.
  destruct focused as [foc|]; cbn [indexOf_ref]; [|discriminate].
  destruct (indexOf_spec l foc) as [[Hi _]|(pre0 & post & Hl & Hn & Hi)];
    rewrite Hi; [discriminate|].
  destruct (Z.ltb_spec 0 (Z.of_nat (List.length pre0))) as [Hpos|]; [|discriminate].
  destruct (exists_last (l := pre0)) as (pre & prev & Hpre).
  { intro E. subst pre0. cbn in Hpos. lia. }
  subst pre0 l. rewrite length_app in *. cbn [List.length] in *.
  replace (Z.to_nat (Z.of_nat (List.length pre + 1) - 1)) with (List.length pre)
    by lia.
  rewrite <- app_assoc. cbn [app].
  rewrite nth_error_app2 by lia. rewrite Nat.sub_diag. cbn [nth_error].
  intro E. injection E as E. subst prev.
  exists foc, pre, post. repeat split. exact Hn.
Qed.

(** The only two inputs [tabFocus] can pick. *)
Lemma tabFocus_cases (f : Form) (currentInput i : IonicFormInput) :
  tabFocus f currentInput = Some i ->
  (exists pre post,
     _inputs f = pre ++ currentInput :: i :: post
     /\ ~ In currentInput pre /\ _focused f <> Some i)
  \/ (exists foc pre post,
        _focused f = Some foc
        /\ _inputs f = pre ++ i :: foc :: post
        /\ ~ In foc (pre ++ [i])).
Proof.
  unfold tabFocus. cbv zeta.
  destruct (indexOf_spec (_inputs f) currentInput)
    as [[Hi _]|(pre & post & Hl & Hn & Hi)]; rewrite Hi.
  - cbn [Z.add Z.ltb Z.compare andb]. intro H. right.
    apply tabFocus_back. exact H.
  - assert (Hnth : nth_error (_inputs f)
                     (Z.to_nat (Z.of_nat (List.length pre) + 1))
                   = nth_error post 0).
    { rewrite Hl.
      replace (Z.to_nat (Z.of_nat (List.length pre) + 1))
        with (List.length pre + 1)%nat by lia.
      rewrite nth_error_app2 by lia.
      replace (List.length pre + 1 - List.length pre)%nat with 1%nat by lia.
      reflexivity. }
    rewrite Hnth.
    destruct (_ && _); [destruct post as [|nxt post]; cbn [nth_error]|].
    + intro H. right. apply tabFocus_back. exact H.
    + destruct (is_focused f nxt) eqn:Ef; cbn [negb].
      * intro H. right. apply tabFocus_back. exact H.
      * intro E. injection E as E. subst nxt. left.
        exists pre, post. repeat split; try assumption.
        apply is_focused_false. exact Ef.
    + intro H. right. apply tabFocus_back. exact H.
Qed.

(** X18.  [tabFocus] hands the focus to at most one input, and only to
    one of two: the input registered right after the current one,
    provided it is not the focused input, or else the input registered
    right before the focused one. *)
Theorem tabFocus_target (f : Form) (currentInput i : IonicFormInput) :
  tabFocus f currentInput = Some i ->
  (exists pre post,
     _inputs f = pre ++ currentInput :: i :: post
     /\ ~ In currentInput pre /\ _focused f <> Some i)
  \/ (exists foc pre post,
        _focused f = Some foc
        /\ _inputs f = pre ++ i :: foc :: post
        /\ ~ In foc (pre ++ [i])).
Proof. apply tabFocus_cases. Qed.

Lemma tabFocus_target_witness :
  let f := {| _focused := Some 10%nat; _ids := 2; _inputs := [10; 20; 30]%nat |} in
  (exists pre post,
     _inputs f = pre ++ 10%nat :: 20%nat :: post
     /\ ~ In 10%nat pre /\ _focused f <> Some 20%nat)
  \/ (exists foc pre post,
        _focused f = Some foc
        /\ _inputs f = pre ++ 20%nat :: foc :: post
        /\ ~ In foc (pre ++ [20%nat])).
Proof.
  intro f. apply (tabFocus_target f 10%nat 20%nat). reflexivity.
Defined.

(** X19.  The input [tabFocus] picks is always a registered one, and
    never the one that already has the focus. *)
Theorem tabFocus_registered_not_focused
  (f : Form) (currentInput i : IonicFormInput) :
  tabFocus f currentInput = Some i ->
  In i (_inputs f) /\ _focused f <> Some i.
Proof.
  intro H. apply tabFocus_cases in H.
  destruct H as [(pre & post & Hl & _ & Hf)|(foc & pre & post & Hf & Hl & Hn)].
  - split; [|exact Hf]. rewrite Hl. apply in_or_app. right. right. left. reflexivity.
  - split.
    + rewrite Hl. apply in_or_app. right. left. reflexivity.
    + rewrite Hf. intro E. injection E as E. subst foc.
      apply Hn. apply in_or_app. right. left. reflexivity.
Qed.

Lemma tabFocus_registered_not_focused_witness :
  let f := {| _focused := Some 30%nat; _ids := 2; _inputs := [10; 20; 30]%nat |} in
  tabFocus f 20%nat = Some 20%nat
  /\ In 20%nat (_inputs f) /\ _focused f <> Some 20%nat.
Proof.
  intro f. split; [reflexivity|].
  apply (tabFocus_registered_not_focused f 20%nat 20%nat). reflexivity.
Defined.

(** X20.  From a registered input, [tabFocus] goes to the input
    registered right after it, unless that one has the focus. *)
Theorem tabFocus_next
  (f : Form) (pre post : list IonicFormInput) (currentInput next : IonicFormInput) :
  _inputs f = pre ++ currentInput :: next :: post ->
  ~ In currentInput pre ->
  _focused f <> Some next ->
  tabFocus f currentInput = Some next.
Proof.
  intros Hl Hn Hf. unfold tabFocus. cbv zeta.
  assert (Hidx : indexOf (_inputs f) currentInput = Z.of_nat (List.length pre)).
  { rewrite Hl. apply indexOf_first, Hn. }
  rewrite Hidx.
  assert (Hnth : nth_error (_inputs f)
                   (Z.to_nat (Z.of_nat (List.length pre) + 1)) = Some next).
  { rewrite Hl.
    replace (Z.to_nat (Z.of_nat (List.length pre) + 1))
      with (List.length pre + 1)%nat by lia.
    rewrite nth_error_app2 by lia.
    replace (List.length pre + 1 - List.length pre)%nat with 1%nat by lia.
    reflexivity. }
  rewrite Hnth.
  assert (Hlen : List.length (_inputs f) = (List.length pre + 2 + List.length post)%nat).
  { rewrite Hl, length_app. cbn [List.length]. lia. }
  rewrite Hlen.
  destruct (Z.ltb_spec 0 (Z.of_nat (List.length pre) + 1)) as [_|]; [|lia].
  destruct (Z.ltb_spec (Z.of_nat (List.length pre) + 1)
              (Z.of_nat (List.length pre + 2 + List.length post))) as [_|]; [|lia].
  cbn [andb]. apply is_focused_false in Hf. rewrite Hf. reflexivity.
Qed.

Lemma tabFocus_next_witness :
  tabFocus {| _focused := Some 10%nat; _ids := 2; _inputs := [10; 20; 30]%nat |}
           10%nat
  = Some 20%nat.
Proof.
  apply (tabFocus_next _ [] [30%nat] 10%nat 20%nat).
  - reflexivity.
  - intros [].
  - discriminate.
Defined.

(** X21.  From the last registered input, or from one that is not
    registered, nothing gets the focus while no input is focused; and
    when the focused input is the last one, tabbing from it goes back to
    the input registered right before it. *)
Theorem tabFocus_at_end
  (f : Form) (pre : list IonicFormInput) (currentInput : IonicFormInput) :
  (_inputs f = pre ++ [currentInput] /\ ~ In currentInput pre)
    \/ ~ In currentInput (_inputs f) ->
  (_focused f = None -> tabFocus f currentInput = None)
  /\ (forall pre' prev,
        _inputs f = pre' ++ [prev; currentInput] ->
        ~ In currentInput (pre' ++ [prev]) ->
        _focused f = Some currentInput ->
        tabFocus f currentInput = Some prev).
Proof.
  intro Hend.
  assert (Hfwd : forall g : IonicFormInput -> option IonicFormInput,
     (if (0 <? indexOf (_inputs f) currentInput + 1)%Z
         && (indexOf (_inputs f) currentInput + 1
               <? Z.of_nat (List.length (_inputs f)))%Z
      then match nth_error (_inputs f)
                   (Z.to_nat (indexOf (_inputs f) currentInput + 1)) with
           | Some n => g n
           | None => None
           end
      else None) = None).
  { intro g.
    destruct (indexOf_spec (_inputs f) currentInput)
      as [[Hi _]|(p & q & Hl & Hn & Hi)]; rewrite Hi; [reflexivity|].
    destruct Hend as [He|He].
    - assert (Hlen : List.length (_inputs f) = (List.length p + 1 + List.length q)%nat).
      { rewrite Hl, length_app. cbn [List.length]. lia. }
      destruct He as [He Hpre].
      assert (Hq : q = []).
      { rewrite He in Hl.
        destruct (first_occurrence_unique currentInput pre p [] q Hpre Hn Hl)
          as [_ H]. symmetry. exact H. }
      subst q. rewrite Hlen. cbn [List.length].
      destruct (Z.ltb_spec (Z.of_nat (List.length p) + 1)
                  (Z.of_nat (List.length p + 1 + 0))); [lia|].
      rewrite andb_false_r. reflexivity.
    - exfalso. apply He. rewrite Hl. apply in_or_app. right. left. reflexivity. }
  split.
  - intro Hnone. unfold tabFocus. cbv zeta.
    rewrite (Hfwd (fun n => if negb (is_focused f n) then Some n else None)).
    rewrite Hnone. reflexivity.
  - intros pre' prev Hl Hn Hfoc. unfold tabFocus. cbv zeta.
    rewrite (Hfwd (fun n => if negb (is_focused f n) then Some n else None)).
    rewrite Hfoc. cbn [indexOf_ref].
    replace (pre' ++ [prev; currentInput]) with ((pre' ++ [prev]) ++ [currentInput])
      in Hl by (rewrite <- app_assoc; reflexivity).
    assert (Hidx : indexOf (_inputs f) currentInput
                   = Z.of_nat (List.length (pre' ++ [prev]))).
    { rewrite Hl. apply indexOf_first, Hn. }
    rewrite Hidx, Hl.
    rewrite length_app. cbn [List.length].
    destruct (Z.ltb_spec 0 (Z.of_nat (List.length pre' + 1))); [|lia].
    replace (Z.to_nat (Z.of_nat (List.length pre' + 1) - 1)) with (List.length pre')
      by lia.
    rewrite <- !app_assoc. rewrite nth_error_app2 by lia.
    rewrite Nat.sub_diag. reflexivity.
Qed.

Lemma tabFocus_at_end_witness :
  tabFocus {| _focused := None; _ids := 2; _inputs := [10; 20; 30]%nat |} 30%nat
  = None
  /\ tabFocus {| _focused := Some 30%nat; _ids := 2; _inputs := [10; 20; 30]%nat |}
              30%nat
     = Some 20%nat.
Proof.
  split.
  - apply (tabFocus_at_end _ [10; 20]%nat 30%nat); [left; split|];
      [reflexivity | cbn; intros [E|[E|[]]]; discriminate | reflexivity].
  - assert (Hlast : ~ In 30%nat [10; 20]%nat)
      by (cbn; intros [E|[E|[]]]; discriminate).
    destruct (tabFocus_at_end
                {| _focused := Some 30%nat; _ids := 2; _inputs := [10; 20; 30]%nat |}
                [10; 20]%nat 30%nat (or_introl (conj eq_refl Hlast))) as [_ H].
    apply (H [10%nat] 20%nat).
    + reflexivity.
    + cbn. intros [E|[E|[]]]; discriminate.
    + reflexivity.
Defined.

Lemma NoDup_map_injective {A B : Type} (g : A -> B) (l : list A) :
  (forall a b, g a = g b -> a = b) -> NoDup l -> NoDup (map g l).
Proof.
  intros Hinj Hnd. induction Hnd as [|a l Hnin Hnd IH]; cbn [map]; constructor.
  - intro Hin. apply in_map_iff in Hin. destruct Hin as (b & E & Hb).
    apply Hinj in E. subst b. contradiction.
  - exact IH.
Qed.

(** X22.  Ids are handed out in sequence: as long as the counter stays
    within 2^53, [n] calls of [nextId] return the [n] integers that
    follow the last id given, never the same id twice, so a new form
    gives 0, 1, 2, ...  At 2^53 the counter sticks: [nextId] returns
    2^53 again and leaves the form as it is. *)
Theorem nextIds_consecutive (n : nat) (f : Form) :
  ((-1 <= _ids f)%Z ->
   (_ids f + Z.of_nat n <= 9007199254740992)%Z ->
   fst (nextIds n f)
   = map (fun k => (_ids f + 1 + Z.of_nat k)%Z) (seq 0 n)
   /\ _ids (snd (nextIds n f)) = (_ids f + Z.of_nat n)%Z
   /\ NoDup (fst (nextIds n f)))
  /\ ((Z.of_nat n <= 9007199254740993)%Z ->
      fst (nextIds n newForm) = map Z.of_nat (seq 0 n))
  /\ (_ids f = 9007199254740992%Z ->
      fst (nextId f) = 9007199254740992%Z
      /\ _ids (snd (nextId f)) = 9007199254740992%Z).
Proof.
  assert (H : forall n f,
    (-1 <= _ids f)%Z ->
    (_ids f + Z.of_nat n <= 9007199254740992)%Z ->
    fst (nextIds n f) = map (fun k => (_ids f + 1 + Z.of_nat k)%Z) (seq 0 n)
    /\ _ids (snd (nextIds n f)) = (_ids f + Z.of_nat n)%Z).
  { clear. induction n as [|n IH]; intros f Hlo Hhi.
    - cbn. split; [reflexivity | lia].
    - cbn [nextIds]. unfold nextId, increment. cbv beta iota zeta.
      destruct (Z.ltb_spec (_ids f) 9007199254740992) as [Hlt|Hge]; [|lia].
      specialize (IH {| _focused := _focused f; _ids := (_ids f + 1)%Z;
                        _inputs := _inputs f |}).
      cbn [_ids] in IH.
      destruct (IH ltac:(lia) ltac:(lia)) as [IH1 IH2].
      destruct (nextIds n _) as [ids f2]. cbn [fst snd _ids] in *.
      split; [|lia].
      cbn [seq map]. f_equal; [lia|].
      rewrite IH1, <- seq_shift, map_map.
      apply map_ext. intro k. lia. }
  split; [|split].
  - intros Hlo Hhi. destruct (H n f Hlo Hhi) as [H1 H2].
    split; [exact H1|]. split; [exact H2|].
    rewrite H1. apply NoDup_map_injective; [|apply seq_NoDup].
    intros a b E. lia.
  - intro Hn.
    destruct (H n newForm) as [H0 _]; [cbn [newForm _ids]; lia .. |].
    rewrite H0. apply map_ext. intro k. cbn [newForm _ids]. lia.
  - intro Hmax. unfold nextId, increment. cbn [fst snd _ids]. rewrite Hmax.
    split; reflexivity.
Qed.

Lemma nextIds_consecutive_witness :
  fst (nextIds 3 newForm) = [0; 1; 2]%Z
  /\ fst (nextId {| _focused := None; _ids := 9007199254740992;
                    _inputs := [] |}) = 9007199254740992%Z.
Proof.
  split.
  - destruct (nextIds_consecutive 3 newForm) as (_ & H & _).
    rewrite H; [reflexivity | cbn [Z.of_nat Pos.of_succ_nat Pos.succ]; lia].
  - apply (nextIds_consecutive 0
             {| _focused := None; _ids := 9007199254740992; _inputs := [] |}).
    reflexivity.
Defined.

(** X23.  Whatever [removeArrayItem] does to the list, a deregistered
    input is no longer the focused one, and deregistering leaves the
    focus of any other input, and the id counter, alone. *)
Theorem deregister_unsets_focus
  (removeArrayItem : list IonicFormInput -> IonicFormInput -> list IonicFormInput)
  (input : IonicFormInput) (f : Form) :
  _focused (deregister removeArrayItem input f) <> Some input
  /\ (_focused f <> Some input ->
      _focused (deregister removeArrayItem input f) = _focused f)
  /\ _ids (deregister removeArrayItem input f) = _ids f.
Proof.
  unfold deregister, unsetAsFocused, is_focused. cbn [_focused].
  destruct (_focused f) as [foc|] eqn:Ef; cbn [_focused _ids].
  - destruct (Nat.eqb_spec input foc) as [E|E]; cbn [_focused _ids].
    + subst foc. split; [discriminate|]. split; [|reflexivity].
      intro H. contradiction H. reflexivity.
    + split; [intro H; injection H as H; congruence|].
      split; [intros _; reflexivity | reflexivity].
  - split; [discriminate|]. split; [intros _; reflexivity | reflexivity].
Qed.

Lemma deregister_unsets_focus_witness :
  _focused (deregister (fun l i => remove Nat.eq_dec i l) 10%nat
              {| _focused := Some 20%nat; _ids := 2; _inputs := [10; 20]%nat |})
  = Some 20%nat.
Proof.
  apply (deregister_unsets_focus (fun l i => remove Nat.eq_dec i l) 10%nat
           {| _focused := Some 20%nat; _ids := 2; _inputs := [10; 20]%nat |}).
  discriminate.
Defined.

End FormFacts.

(** ** The native bridge queue *)

Module NativeSyncFacts.

Import NativeSync.

Section QueueFacts.

Variable Args : Type.

Local Abbreviation State := (State Args).
Local Abbreviation Message := (Message Args).

Lemma action_cases (hasNativeUI : bool) (m : Message) (s : State) :
  action Args hasNativeUI (actionName Args m) (args Args m) s
  = if hasNativeUI
    then {| _actionQueue := []; sent := sent Args s ++ _actionQueue Args s ++ [m] |}
    else {| _actionQueue := _actionQueue Args s ++ [m]; sent := sent Args s |}.
Proof.
  destruct m as [name a]. unfold action, _sendMessages. cbn.
  destruct hasNativeUI; cbn; [rewrite app_assoc|]; reflexivity.
Qed.

(** Messages are neither lost nor duplicated nor reordered. *)
Lemma actions_conserve (calls : list (bool * Message)) (s : State) :
  sent Args (actions Args calls s) ++ _actionQueue Args (actions Args calls s)
  = sent Args s ++ _actionQueue Args s ++ map snd calls.
Proof.
  unfold actions. revert s.
  induction calls as [|[b m] calls IH]; intro s; cbn [fold_left map fst snd].
  - rewrite app_nil_r. reflexivity.
  - rewrite IH, action_cases. destruct b; cbn [sent _actionQueue].
    + rewrite <- !app_assoc. reflexivity.
    + rewrite <- !app_assoc. reflexivity.
Qed.

(** X24.  Over any run of [action] calls, with the bridge there at some
    calls and missing at others, every message is either sent or still
    queued, exactly once and in the order of the calls. *)
Theorem actions_fifo (calls : list (bool * Message)) (s : State) :
  sent Args (actions Args calls s) ++ _actionQueue Args (actions Args calls s)
  = sent Args s ++ _actionQueue Args s ++ map snd calls.
Proof. apply actions_conserve. Qed.

(** X25.  A call of [action] with the bridge there leaves the queue
    empty: everything queued while the bridge was missing has been sent
    ahead of the new message. *)
Theorem action_flushes (calls : list (bool * Message)) (m : Message) (s : State) :
  let s' := actions Args (calls ++ [(true, m)]) s in
  _actionQueue Args s' = []
  /\ sent Args s' = sent Args s ++ _actionQueue Args s ++ map snd calls ++ [m].
Proof.
  intro s'. subst s'. unfold actions. rewrite fold_left_app. cbn [fold_left fst snd].
  fold (actions Args calls s). rewrite action_cases. cbn [sent _actionQueue].
  split; [reflexivity|].
  rewrite app_assoc, actions_conserve, <- !app_assoc. reflexivity.
Qed.

(** X26.  While the bridge is missing nothing is sent: the messages
    wait in the queue, in the order of the calls. *)
Theorem actions_wait_for_bridge (calls : list (bool * Message)) (s : State) :
  Forall (fun c => fst c = false) calls ->
  sent Args (actions Args calls s) = sent Args s
  /\ _actionQueue Args (actions Args calls s) = _actionQueue Args s ++ map snd calls.
Proof.
  unfold actions. intro Hall. revert s.
  induction Hall as [|[b m] calls Hb Hall IH]; intro s; cbn [fold_left map fst snd].
  - rewrite app_nil_r. split; reflexivity.
  - cbn in Hb. subst b. rewrite action_cases.
    destruct (IH {| _actionQueue := _actionQueue Args s ++ [m]; sent := sent Args s |})
      as [H1 H2].
    rewrite H1, H2. cbn [sent _actionQueue]. rewrite <- app_assoc.
    split; reflexivity.
Qed.

End QueueFacts.

Lemma actions_wait_for_bridge_witness :
  let m1 := {| actionName := "push"; args := 1%nat |} in
  let m2 := {| actionName := "pop"; args := 2%nat |} in
  _actionQueue nat
    (actions nat [(false, m1); (false, m2)] {| _actionQueue := []; sent := [] |})
  = [m1; m2].
Proof.
  intros m1 m2.
  apply (actions_wait_for_bridge nat [(false, m1); (false, m2)]
           {| _actionQueue := []; sent := [] |}).
  repeat constructor.
Defined.

End NativeSyncFacts.

(** ** The menu toggle *)

Module MenuToggleFacts.

Import MenuToggle.

(** X27.  A menu toggle is shown unless it sits in a navbar of a page:
    there it is shown exactly when its menu exists and can open and,
    beyond that, the page is the first of its stack or the menu is
    persistent. *)
Theorem isHidden_shown_iff (t : MenuToggle) :
  isHidden t = false
  <-> (_inNavbar t = false
       \/ _viewCtrl t = None
       \/ exists m v,
            menu t = Some m /\ _viewCtrl t = Some v
            /\ _canOpen m = true
            /\ (isFirst v = true \/ persistent m = true)).
Proof.
  destruct t as [[[co pe]|] [[fi]|] nb tb]; unfold isHidden; cbn;
    destruct nb; try destruct co; try destruct fi; try destruct pe; cbn;
    (split; intro H;
     [ try discriminate;
       first [ left; reflexivity
             | right; left; reflexivity
             | right; right; eexists; eexists;
               split; [reflexivity|]; split; [reflexivity|];
               split; [reflexivity|];
               first [left; reflexivity | right; reflexivity] ]
     | try reflexivity;
       destruct H as [H|[H|(m' & v' & Hm & Hv & Hc & Hor)]];
       try discriminate;
       injection Hm as Hm; injection Hv as Hv; subst m' v'; cbn in *;
       destruct Hor; discriminate ]).
Qed.

Lemma isHidden_shown_iff_witness :
  isHidden {| menu := Some {| _canOpen := true; persistent := true |};
              _viewCtrl := Some {| isFirst := false |};
              _inNavbar := true; _inToolbar := true |} = false.
Proof.
  apply (isHidden_shown_iff
           {| menu := Some {| _canOpen := true; persistent := true |};
              _viewCtrl := Some {| isFirst := false |};
              _inNavbar := true; _inToolbar := true |}).
  right. right. eexists. eexists.
  split; [reflexivity|]. split; [reflexivity|]. split; [reflexivity|].
  right. reflexivity.
Defined.

End MenuToggleFacts.
